(** * Travel personal assistant: the chat exchange and the conversation normalizer

    A shallow embedding of the two source files of the repository:

    - the forwarding function (its [processMessages] and [handler]), which
      normalizes a conversation and sends it to the inference API;
    - the chat component [Chat] ([src/components/Chat.tsx]), which owns the
      session state and runs one request/response exchange per submit.

    Values have the types the TypeScript sources declare for them
    ([Message], [MessageContent], [Conversation]).  JavaScript strings are
    modelled as byte strings holding their UTF-8 encoding.  The built-ins of
    the run time that the sources call ([JSON.parse], [JSON.stringify],
    [String.prototype.trim], [String.prototype.split],
    [String.prototype.replace] with the one regular expression used, and
    [Buffer.from(_, 'base64')]) are given executable models in module [JS].
    Logging ([console.log], [console.error]) has no effect on the values
    computed and is left out.

    [JSON.parse] returns a value of type [any], and the sources use it at a
    declared type without a check.  The embedding follows such a value when
    it has the declared type, and stops with the completion [Untyped] when
    it has not. *)

From Stdlib Require Import String Ascii List Bool Arith NArith ZArith Lia.
From Stdlib Require Import DecimalString.
From Stdlib Require QArith.
From Stdlib.Strings Require Import Byte.
Import ListNotations.

Local Open Scope string_scope.
Local Open Scope nat_scope.
Local Open Scope list_scope.

(** ** Built-ins of the JavaScript run time *)

Module JS.

(** *** Strings *)

(** A string is truthy when it is not empty. *)
Definition truthy (s : string) : bool :=
  match s with
  | EmptyString => false
  | String _ _ => true
  end.

(** [a || b] on strings. *)
Definition or_else (a b : string) : string :=
  if truthy a then a else b.

Fixpoint rev_string (s acc : string) : string :=
  match s with
  | EmptyString => acc
  | String c r => rev_string r (String c acc)
  end.

Fixpoint drop_prefix (p s : string) : option string :=
  match p with
  | EmptyString => Some s
  | String a p' =>
      match s with
      | EmptyString => None
      | String b s' => if Ascii.eqb a b then drop_prefix p' s' else None
      end
  end.

(** One white space or line terminator of ECMAScript at the head of a
    string: TAB, LF, VT, FF, CR, SP, and the UTF-8 forms of U+00A0, U+1680,
    U+2000..U+200A, U+2028, U+2029, U+202F, U+205F, U+3000 and U+FEFF.
    Returns the rest of the string behind it. *)
Definition strip_white_head (s : string) : option string :=
  match s with
  | String c r =>
      let n := nat_of_ascii c in
      if ((9 <=? n) && (n <=? 13)) || (n =? 32) then Some r
      else
        match r with
        | String d r1 =>
            let m := nat_of_ascii d in
            if (n =? 194) && (m =? 160) then Some r1
            else
              match r1 with
              | String e r2 =>
                  let k := nat_of_ascii e in
                  if ((n =? 225) && (m =? 154) && (k =? 128))
                     || ((n =? 226) && (m =? 128)
                         && (((128 <=? k) && (k <=? 138)) || (k =? 168) || (k =? 169) || (k =? 175)))
                     || ((n =? 226) && (m =? 129) && (k =? 159))
                     || ((n =? 227) && (m =? 128) && (k =? 128))
                     || ((n =? 239) && (m =? 187) && (k =? 191))
                  then Some r2
                  else None
              | EmptyString => None
              end
        | EmptyString => None
        end
  | EmptyString => None
  end.

(** The same at the end of a string, read on the reversed string. *)
Definition strip_white_last (s : string) : option string :=
  match s with
  | String c r =>
      let n := nat_of_ascii c in
      if ((9 <=? n) && (n <=? 13)) || (n =? 32) then Some r
      else
        match r with
        | String d r1 =>
            let m := nat_of_ascii d in
            if (m =? 194) && (n =? 160) then Some r1
            else
              match r1 with
              | String e r2 =>
                  let k := nat_of_ascii e in
                  if ((k =? 225) && (m =? 154) && (n =? 128))
                     || ((k =? 226) && (m =? 128)
                         && (((128 <=? n) && (n <=? 138)) || (n =? 168) || (n =? 169) || (n =? 175)))
                     || ((k =? 226) && (m =? 129) && (n =? 159))
                     || ((k =? 227) && (m =? 128) && (n =? 128))
                     || ((k =? 239) && (m =? 187) && (n =? 191))
                  then Some r2
                  else None
              | EmptyString => None
              end
        | EmptyString => None
        end
  | EmptyString => None
  end.

(** Repeated stripping; the fuel is the length of the string, and every
    step removes at least one byte. *)
Fixpoint strip_while (strip : string -> option string) (fuel : nat) (s : string) : string :=
  match fuel with
  | O => s
  | S fuel' =>
      match strip s with
      | Some r => strip_while strip fuel' r
      | None => s
      end
  end.

Definition trimStart (s : string) : string :=
  strip_while strip_white_head (String.length s) s.

Definition trimEnd (s : string) : string :=
  rev_string (strip_while strip_white_last (String.length s) (rev_string s "")) "".

(** [String.prototype.trim]. *)
Definition trim (s : string) : string := trimEnd (trimStart s).

(** [s.split(sep)] for a separator of one character. *)
Fixpoint split_acc (sep : ascii) (s : string) (cur : string) : list string :=
  match s with
  | EmptyString => [rev_string cur ""]
  | String c r =>
      if Ascii.eqb c sep then rev_string cur "" :: split_acc sep r ""
      else split_acc sep r (String c cur)
  end.

Definition split (sep : ascii) (s : string) : list string := split_acc sep s "".

(** *** The regular expression of the normalizer *)

Definition is_lower (c : ascii) : bool :=
  let n := nat_of_ascii c in (97 <=? n) && (n <=? 122).

Fixpoint drop_lower (s : string) : string :=
  match s with
  | String c r => if is_lower c then drop_lower r else s
  | EmptyString => s
  end.

(** [s.replace(/^data:image\/[a-z]+;base64,/, '')]: the pattern is anchored
    at the start, wants at least one lower-case letter, and the letters are
    followed by a character that is not one, so the longest run of letters
    is the only candidate. *)
Definition replace_data_uri_header (s : string) : string :=
  match drop_prefix "data:image/" s with
  | Some r =>
      match r with
      | String c _ =>
          if is_lower c then
            match drop_prefix ";base64," (drop_lower r) with
            | Some payload => payload
            | None => s
            end
          else s
      | EmptyString => s
      end
  | None => s
  end.

(** *** [Buffer] *)

Definition Buffer := list byte.

Definition byte_of_nat (n : nat) : byte := byte_of_ascii (ascii_of_nat n).

(** The value of a character in the base64 alphabet; Node also reads the
    URL-safe alphabet ([-] and [_]). *)
Definition unbase64 (c : ascii) : option nat :=
  let n := nat_of_ascii c in
  if (65 <=? n) && (n <=? 90) then Some (n - 65)
  else if (97 <=? n) && (n <=? 122) then Some (n - 71)
  else if (48 <=? n) && (n <=? 57) then Some (n + 4)
  else if (n =? 43) || (n =? 45) then Some 62
  else if (n =? 47) || (n =? 95) then Some 63
  else None.

(** The digits of a base64 text: Node skips a character that is not in the
    alphabet and stops at the first [=]. *)
Fixpoint sextets (s : string) : list nat :=
  match s with
  | EmptyString => []
  | String c r =>
      if Ascii.eqb c "="%char then []
      else
        match unbase64 c with
        | Some v => v :: sextets r
        | None => sextets r
        end
  end.

(** Four digits give three bytes, three give two, two give one. *)
Fixpoint bytes_of_sextets (l : list nat) : Buffer :=
  match l with
  | a :: b :: c :: d :: r =>
      byte_of_nat (a * 4 + b / 16)
        :: byte_of_nat ((b mod 16) * 16 + c / 4)
        :: byte_of_nat ((c mod 4) * 64 + d)
        :: bytes_of_sextets r
  | [a; b; c] =>
      [byte_of_nat (a * 4 + b / 16); byte_of_nat ((b mod 16) * 16 + c / 4)]
  | [a; b] => [byte_of_nat (a * 4 + b / 16)]
  | _ => []
  end.

(** [Buffer.from(s, 'base64')]. *)
Definition Buffer_from_base64 (s : string) : Buffer :=
  bytes_of_sextets (sextets s).

(** *** JSON values *)

(** A JSON value.  A number is carried as its literal; the development reads
    numbers and prints the ones it builds itself (the bytes of a [Buffer]),
    and never computes with one. *)
#[warnings="-register-all"]
Inductive json : Type :=
| JNull
| JBool (b : bool)
| JNum (literal : string)
| JStr (s : string)
| JArr (items : list json)
| JObj (members : list (string * json)).

Definition dquote : ascii := ascii_of_nat 34.
Definition backslash : ascii := ascii_of_nat 92.

Definition hex_digit (n : nat) : ascii :=
  if n <? 10 then ascii_of_nat (48 + n) else ascii_of_nat (87 + n).

(** One character of a string inside the quotes of [JSON.stringify]. *)
Definition quote_char (c : ascii) : string :=
  let n := nat_of_ascii c in
  if n =? 34 then String backslash (String dquote "")
  else if n =? 92 then String backslash (String backslash "")
  else if n =? 8 then String backslash "b"
  else if n =? 12 then String backslash "f"
  else if n =? 10 then String backslash "n"
  else if n =? 13 then String backslash "r"
  else if n =? 9 then String backslash "t"
  else if n <? 32 then
    String backslash
      (String "u" (String "0" (String "0"
         (String (hex_digit (n / 16)) (String (hex_digit (n mod 16)) "")))))
  else String c "".

Fixpoint quote_body (s : string) : string :=
  match s with
  | EmptyString => String dquote ""
  | String c r => String.append (quote_char c) (quote_body r)
  end.

Definition quote (s : string) : string := String dquote (quote_body s).

Fixpoint join (sep : string) (l : list string) : string :=
  match l with
  | [] => ""
  | [x] => x
  | x :: r => String.append x (String.append sep (join sep r))
  end.

Module JSON.

(** [JSON.stringify] on a JSON value. *)
Fixpoint stringify (j : json) : string :=
  match j with
  | JNull => "null"
  | JBool true => "true"
  | JBool false => "false"
  | JNum l => l
  | JStr s => quote s
  | JArr l => String.append "[" (String.append (join "," (map stringify l)) "]")
  | JObj m =>
      String.append "{"
        (String.append
           (join "," (map (fun kv => String.append (quote (fst kv))
                                       (String.append ":" (stringify (snd kv)))) m))
           "}")
  end.

(** **** [JSON.parse]: the tokens *)

Inductive token : Type :=
| TLBrace | TRBrace | TLBracket | TRBracket | TColon | TComma
| TStr (s : string)
| TNum (literal : string)
| TTrue | TFalse | TNull.

(** Where the reader stands inside a number: an optional minus sign; a
    zero, or a digit from 1 to 9 and then any digits; optionally a point and
    one digit or more; optionally [e] or [E], a sign, and one digit or
    more. *)
Inductive num_state : Type :=
| NMinus | NZero | NInt | NDot | NFrac | NExp | NExpSign | NExpDigits.

Definition num_complete (st : num_state) : bool :=
  match st with
  | NZero | NInt | NFrac | NExpDigits => true
  | _ => false
  end.

Definition is_digit (c : ascii) : bool :=
  let n := nat_of_ascii c in (48 <=? n) && (n <=? 57).

Definition num_step (st : num_state) (c : ascii) : option num_state :=
  let n := nat_of_ascii c in
  match st with
  | NMinus => if n =? 48 then Some NZero else if is_digit c then Some NInt else None
  | NZero =>
      if n =? 46 then Some NDot
      else if (n =? 101) || (n =? 69) then Some NExp else None
  | NInt =>
      if is_digit c then Some NInt
      else if n =? 46 then Some NDot
      else if (n =? 101) || (n =? 69) then Some NExp else None
  | NDot => if is_digit c then Some NFrac else None
  | NFrac =>
      if is_digit c then Some NFrac
      else if (n =? 101) || (n =? 69) then Some NExp else None
  | NExp =>
      if is_digit c then Some NExpDigits
      else if (n =? 43) || (n =? 45) then Some NExpSign else None
  | NExpSign => if is_digit c then Some NExpDigits else None
  | NExpDigits => if is_digit c then Some NExpDigits else None
  end.

Definition hex_value (c : ascii) : option nat :=
  let n := nat_of_ascii c in
  if (48 <=? n) && (n <=? 57) then Some (n - 48)
  else if (97 <=? n) && (n <=? 102) then Some (n - 87)
  else if (65 <=? n) && (n <=? 70) then Some (n - 55)
  else None.

(** The UTF-8 bytes of the code unit of a [\uXXXX] escape, pushed on a
    reversed string. *)
Definition push_code_unit (v : nat) (acc : string) : string :=
  if v <? 128 then String (ascii_of_nat v) acc
  else if v <? 2048 then
    String (ascii_of_nat (128 + v mod 64)) (String (ascii_of_nat (192 + v / 64)) acc)
  else
    String (ascii_of_nat (128 + v mod 64))
      (String (ascii_of_nat (128 + (v / 64) mod 64))
         (String (ascii_of_nat (224 + v / 4096)) acc)).

(** A high surrogate followed by a low one is one character of four bytes. *)
Fixpoint join_surrogates (s : string) : string :=
  match s with
  | String a (String b (String c (String d (String e (String f r)))) as t) =>
      let '(na, nb, nc) := (nat_of_ascii a, nat_of_ascii b, nat_of_ascii c) in
      let '(nd, ne, nf) := (nat_of_ascii d, nat_of_ascii e, nat_of_ascii f) in
      if (na =? 237) && (160 <=? nb) && (nb <=? 175) && (128 <=? nc) && (nc <=? 191)
         && (nd =? 237) && (176 <=? ne) && (ne <=? 191) && (128 <=? nf) && (nf <=? 191)
      then
        let h := (nb - 160) * 64 + (nc - 128) in
        let l := (ne - 176) * 64 + (nf - 128) in
        let u := h / 64 + 1 in
        String (ascii_of_nat (240 + u / 4))
          (String (ascii_of_nat (128 + (u mod 4) * 16 + (h mod 64) / 4))
             (String (ascii_of_nat (128 + (h mod 4) * 16 + l / 64))
                (String (ascii_of_nat (128 + l mod 64)) (join_surrogates r))))
      else String a (join_surrogates t)
  | String a t => String a (join_surrogates t)
  | EmptyString => EmptyString
  end.

(** The reader of tokens, one character at a time.  Strings are collected
    in reverse. *)
Inductive lex_mode : Type :=
| LDefault
| LString (acc : string)
| LEscape (acc : string)
| LUnicode (acc : string) (digits : nat) (value : nat)
| LNumber (st : num_state) (acc : string)
| LWord (rest : string) (t : token).

Definition lex_default (c : ascii) (toks : list token) : option (lex_mode * list token) :=
  let n := nat_of_ascii c in
  if (n =? 32) || (n =? 9) || (n =? 10) || (n =? 13) then Some (LDefault, toks)
  else if n =? 123 then Some (LDefault, TLBrace :: toks)
  else if n =? 125 then Some (LDefault, TRBrace :: toks)
  else if n =? 91 then Some (LDefault, TLBracket :: toks)
  else if n =? 93 then Some (LDefault, TRBracket :: toks)
  else if n =? 58 then Some (LDefault, TColon :: toks)
  else if n =? 44 then Some (LDefault, TComma :: toks)
  else if n =? 34 then Some (LString "", toks)
  else if n =? 45 then Some (LNumber NMinus (String c ""), toks)
  else if n =? 48 then Some (LNumber NZero (String c ""), toks)
  else if is_digit c then Some (LNumber NInt (String c ""), toks)
  else if n =? 116 then Some (LWord "rue" TTrue, toks)
  else if n =? 102 then Some (LWord "alse" TFalse, toks)
  else if n =? 110 then Some (LWord "ull" TNull, toks)
  else None.

Definition lex_step (st : lex_mode * list token) (c : ascii) : option (lex_mode * list token) :=
  let '(mode, toks) := st in
  let n := nat_of_ascii c in
  match mode with
  | LDefault => lex_default c toks
  | LString acc =>
      if n =? 34 then Some (LDefault, TStr (join_surrogates (rev_string acc "")) :: toks)
      else if n =? 92 then Some (LEscape acc, toks)
      else if n <? 32 then None
      else Some (LString (String c acc), toks)
  | LEscape acc =>
      if (n =? 34) || (n =? 92) || (n =? 47) then Some (LString (String c acc), toks)
      else if n =? 98 then Some (LString (String (ascii_of_nat 8) acc), toks)
      else if n =? 102 then Some (LString (String (ascii_of_nat 12) acc), toks)
      else if n =? 110 then Some (LString (String (ascii_of_nat 10) acc), toks)
      else if n =? 114 then Some (LString (String (ascii_of_nat 13) acc), toks)
      else if n =? 116 then Some (LString (String (ascii_of_nat 9) acc), toks)
      else if n =? 117 then Some (LUnicode acc 0 0, toks)
      else None
  | LUnicode acc k v =>
      match hex_value c with
      | Some h =>
          if k =? 3 then Some (LString (push_code_unit (v * 16 + h) acc), toks)
          else Some (LUnicode acc (S k) (v * 16 + h), toks)
      | None => None
      end
  | LNumber ns acc =>
      match num_step ns c with
      | Some ns' => Some (LNumber ns' (String c acc), toks)
      | None =>
          if num_complete ns then lex_default c (TNum (rev_string acc "") :: toks)
          else None
      end
  | LWord rest t =>
      match rest with
      | String d rest' =>
          if Ascii.eqb c d then
            match rest' with
            | EmptyString => Some (LDefault, t :: toks)
            | _ => Some (LWord rest' t, toks)
            end
          else None
      | EmptyString => None
      end
  end.

Fixpoint lex_from (st : lex_mode * list token) (s : string) : option (list token) :=
  match s with
  | String c r =>
      match lex_step st c with
      | Some st' => lex_from st' r
      | None => None
      end
  | EmptyString =>
      match st with
      | (LDefault, toks) => Some (rev toks)
      | (LNumber ns acc, toks) =>
          if num_complete ns then Some (rev (TNum (rev_string acc "") :: toks)) else None
      | _ => None
      end
  end.

Definition lex (s : string) : option (list token) := lex_from (LDefault, []) s.

(** **** [JSON.parse]: the values *)

(** An open array or object, with what it holds so far in reverse. *)
Inductive frame : Type :=
| FArr (done : list json)
| FObj (done : list (string * json))
| FMember (done : list (string * json)) (key : string).

Inductive expect : Type :=
| EValue
| EValueOrEnd
| EKeyOrEnd
| EKey
| EColon (key : string)
| ENext
| EDone (v : json).

(** A key written twice keeps its place and takes the later value. *)
Fixpoint obj_put (k : string) (v : json) (done : list (string * json)) : list (string * json) :=
  match done with
  | [] => [(k, v)]
  | (k', v') :: r =>
      if String.eqb k k' then (k, v) :: r else (k', v') :: obj_put k v r
  end.

Definition obj_add (k : string) (v : json) (done : list (string * json)) : list (string * json) :=
  if existsb (fun kv => String.eqb k (fst kv)) done then obj_put k v done
  else (k, v) :: done.

Definition complete (v : json) (stack : list frame) : option (list frame * expect) :=
  match stack with
  | [] => Some ([], EDone v)
  | FArr done :: st => Some (FArr (v :: done) :: st, ENext)
  | FMember done k :: st => Some (FObj (obj_add k v done) :: st, ENext)
  | FObj _ :: _ => None
  end.

Definition open_value (t : token) (stack : list frame) : option (list frame * expect) :=
  match t with
  | TStr s => complete (JStr s) stack
  | TNum l => complete (JNum l) stack
  | TTrue => complete (JBool true) stack
  | TFalse => complete (JBool false) stack
  | TNull => complete JNull stack
  | TLBracket => Some (FArr [] :: stack, EValueOrEnd)
  | TLBrace => Some (FObj [] :: stack, EKeyOrEnd)
  | _ => None
  end.

Definition close_array (stack : list frame) : option (list frame * expect) :=
  match stack with
  | FArr done :: st => complete (JArr (rev done)) st
  | _ => None
  end.

Definition close_object (stack : list frame) : option (list frame * expect) :=
  match stack with
  | FObj done :: st => complete (JObj (rev done)) st
  | _ => None
  end.

Definition parse_step (st : list frame * expect) (t : token) : option (list frame * expect) :=
  let '(stack, e) := st in
  match e with
  | EValue => open_value t stack
  | EValueOrEnd =>
      match t with
      | TRBracket => close_array stack
      | _ => open_value t stack
      end
  | EKeyOrEnd =>
      match t with
      | TStr k => Some (stack, EColon k)
      | TRBrace => close_object stack
      | _ => None
      end
  | EKey =>
      match t with
      | TStr k => Some (stack, EColon k)
      | _ => None
      end
  | EColon k =>
      match t, stack with
      | TColon, FObj done :: st => Some (FMember done k :: st, EValue)
      | _, _ => None
      end
  | ENext =>
      match t, stack with
      | TComma, FArr _ :: _ => Some (stack, EValue)
      | TComma, FObj _ :: _ => Some (stack, EKey)
      | TRBracket, _ => close_array stack
      | TRBrace, _ => close_object stack
      | _, _ => None
      end
  | EDone _ => None
  end.

Fixpoint parse_from (st : list frame * expect) (toks : list token) : option json :=
  match toks with
  | t :: r =>
      match parse_step st t with
      | Some st' => parse_from st' r
      | None => None
      end
  | [] =>
      match st with
      | ([], EDone v) => Some v
      | _ => None
      end
  end.

(** [JSON.parse]: [None] is the [SyntaxError]. *)
Definition parse (s : string) : option json :=
  match lex s with
  | Some toks => parse_from ([], EValue) toks
  | None => None
  end.

End JSON.

(** A JSON text written with apostrophes for its double quotes, to keep
    examples readable. *)
Fixpoint dq (s : string) : string :=
  match s with
  | EmptyString => EmptyString
  | String c r => String (if Ascii.eqb c "'"%char then dquote else c) (dq r)
  end.

End JS.

(** ** The data model

    The interfaces [TextContent], [ImageContent], [MessageContent], [Message]
    and [Conversation], declared alike in both source files.  The forwarding
    function declares [bytes] as [string | Buffer], the chat component as
    [string]. *)

Inductive ImageBytes : Type :=
| BytesString (s : string)
| BytesBuffer (b : JS.Buffer).

Inductive MessageContent : Type :=
| TextContent (text : string)
| ImageContent (format : string) (bytes : ImageBytes).

Record Message : Type := { role : string; content : list MessageContent }.

Definition Conversation : Type := list Message.

(** *** The JSON form of the data *)

Definition decimal (n : nat) : string := NilEmpty.string_of_uint (Nat.to_uint n).

(** A [Buffer] prints through its [toJSON]. *)
Definition ImageBytes_to_json (b : ImageBytes) : JS.json :=
  match b with
  | BytesString s => JS.JStr s
  | BytesBuffer bs =>
      JS.JObj [("type", JS.JStr "Buffer");
               ("data", JS.JArr (map (fun x => JS.JNum (decimal (nat_of_ascii (ascii_of_byte x)))) bs))]
  end.

Definition MessageContent_to_json (c : MessageContent) : JS.json :=
  match c with
  | TextContent text => JS.JObj [("text", JS.JStr text)]
  | ImageContent format bytes =>
      JS.JObj [("image", JS.JObj [("format", JS.JStr format);
                                  ("source", JS.JObj [("bytes", ImageBytes_to_json bytes)])])]
  end.

Definition Message_to_json (m : Message) : JS.json :=
  JS.JObj [("role", JS.JStr (role m));
           ("content", JS.JArr (map MessageContent_to_json (content m)))].

Definition Conversation_to_json (c : Conversation) : JS.json :=
  JS.JArr (map Message_to_json c).

Fixpoint lookup (k : string) (members : list (string * JS.json)) : option JS.json :=
  match members with
  | [] => None
  | (k', v) :: r => if String.eqb k k' then Some v else lookup k r
  end.

Fixpoint traverse {A B : Type} (f : A -> option B) (l : list A) : option (list B) :=
  match l with
  | [] => Some []
  | a :: r =>
      match f a, traverse f r with
      | Some b, Some bs => Some (b :: bs)
      | _, _ => None
      end
  end.

(** The values of an object that has the given properties and no other. *)
Definition fields (keys : list string) (j : JS.json) : option (list JS.json) :=
  match j with
  | JS.JObj members =>
      if length members =? length keys then traverse (fun k => lookup k members) keys
      else None
  | _ => None
  end.

(** Whether a parsed JSON value has the declared type.  [JSON.parse] returns
    [any] and the sources use the value at its annotation without a check;
    the embedding follows the value only when it has that type.  A parsed
    value holds no [Buffer], so [bytes] is a string. *)
Definition MessageContent_of_json (j : JS.json) : option MessageContent :=
  match fields ["text"] j with
  | Some [JS.JStr text] => Some (TextContent text)
  | _ =>
      match fields ["image"] j with
      | Some [image] =>
          match fields ["format"; "source"] image with
          | Some [JS.JStr format; source] =>
              match fields ["bytes"] source with
              | Some [JS.JStr bytes] => Some (ImageContent format (BytesString bytes))
              | _ => None
              end
          | _ => None
          end
      | _ => None
      end
  end.

Definition Message_of_json (j : JS.json) : option Message :=
  match fields ["role"; "content"] j with
  | Some [JS.JStr r; JS.JArr items] =>
      match traverse MessageContent_of_json items with
      | Some c => Some {| role := r; content := c |}
      | None => None
      end
  | _ => None
  end.

Definition Conversation_of_json (j : JS.json) : option Conversation :=
  match j with
  | JS.JArr items => traverse Message_of_json items
  | _ => None
  end.

(** ** Completions

    How a piece of code ends: with a value, with a thrown [Error] (carried by
    its [message]), or on a value that does not have its declared type, where
    the embedding stops. *)

Inductive Completion (A : Type) : Type :=
| Normal (a : A)
| Throw (message : string)
| Untyped.

Arguments Normal {A} a.
Arguments Throw {A} message.
Arguments Untyped {A}.

(** A promise, settled. *)
Inductive Settled (A : Type) : Type :=
| Resolved (a : A)
| Rejected (message : string).

Arguments Resolved {A} a.
Arguments Rejected {A} message.

(** Code that runs on a state [S].  What was written to the state before a
    [throw] stays written. *)
Definition M (S A : Type) : Type := S -> Completion A * S.

Definition ret {S A : Type} (a : A) : M S A := fun s => (Normal a, s).

Definition bind {S A B : Type} (c : M S A) (k : A -> M S B) : M S B :=
  fun s =>
    match c s with
    | (Normal a, s') => k a s'
    | (Throw m, s') => (Throw m, s')
    | (Untyped, s') => (Untyped, s')
    end.

Definition throw {S A : Type} (message : string) : M S A := fun s => (Throw message, s).

Definition untyped {S A : Type} : M S A := fun s => (Untyped, s).

Definition get {S : Type} : M S S := fun s => (Normal s, s).

Definition modify {S : Type} (f : S -> S) : M S unit := fun s => (Normal tt, f s).

(** [try { c } catch (err) { h err.message }] *)
Definition try_catch {S A : Type} (c : M S A) (h : string -> M S A) : M S A :=
  fun s =>
    match c s with
    | (Throw m, s') => h m s'
    | r => r
    end.

(** [try { c } finally { f }] *)
Definition try_finally {S A : Type} (c : M S A) (f : M S unit) : M S A :=
  fun s =>
    match c s with
    | (Untyped, s') => (Untyped, s')
    | (r, s') =>
        match f s' with
        | (Normal _, s'') => (r, s'')
        | (Throw m, s'') => (Throw m, s'')
        | (Untyped, s'') => (Untyped, s'')
        end
    end.

(** A completion computed without the state. *)
Definition lift {S A : Type} (c : Completion A) : M S A := fun s => (c, s).

Declare Scope js_scope.
Delimit Scope js_scope with js.
Notation "x <- c ;; k" := (bind c (fun x => k))
  (at level 61, c at next level, right associativity) : js_scope.
Notation "c ;; k" := (bind c (fun _ => k))
  (at level 61, right associativity) : js_scope.
Local Open Scope js_scope.

(** ** The forwarding function

    [processMessages] and [handler].  The two arrow functions that
    [processMessages] hands to [map] are named [processMessage] and
    [processContent] here, and its [try] block is [parseConversation]. *)

Module Handler.

Record InferenceConfig : Type := { maxTokens : nat; temperature : QArith_base.Q }.

Definition INFERENCE_CONFIG : InferenceConfig :=
  {| maxTokens := 1000; temperature := QArith_base.Qmake 1%Z 2%positive |}.

(** The item of one content entry: an image whose [bytes] is a truthy string
    is rebuilt around the decoded payload, anything else is returned as it
    is. *)
Definition processContent (content : MessageContent) : MessageContent :=
  match content with
  | ImageContent format (BytesString bytes) =>
      if JS.truthy bytes then
        let base64Data := JS.replace_data_uri_header bytes in
        let binaryData := JS.Buffer_from_base64 base64Data in
        ImageContent format (BytesBuffer binaryData)
      else content
  | _ => content
  end.

(** [{ ...message, content: message.content.map(_) }] *)
Definition processMessage (message : Message) : Message :=
  {| role := role message; content := map processContent (content message) |}.

(** A string is parsed, and a failure of [JSON.parse] is thrown again as
    [Invalid conversation format]; a structured value is used as it is. *)
Definition parseConversation (conversation : string + Conversation) : Completion Conversation :=
  match conversation with
  | inl text =>
      match JS.JSON.parse text with
      | Some j =>
          match Conversation_of_json j with
          | Some parsedConversation => Normal parsedConversation
          | None => Untyped
          end
      | None => Throw "Invalid conversation format"
      end
  | inr parsedConversation => Normal parsedConversation
  end.

Definition processMessages (conversation : string + Conversation) : Completion Conversation :=
  match parseConversation conversation with
  | Normal parsedConversation => Normal (map processMessage parsedConversation)
  | Throw m => Throw m
  | Untyped => Untyped
  end.

(** *** Vocabulary of the statements *)

(** An item that is a [TextContent]. *)
Definition is_text (c : MessageContent) : bool :=
  match c with
  | TextContent _ => true
  | ImageContent _ _ => false
  end.

(** A conversation whose items are all [TextContent]. *)
Definition text_only (c : Conversation) : Prop :=
  Forall (fun m => Forall (fun item => is_text item = true) (content m)) c.

(** Two items of the same variant: the same text, or two images of the same
    [format]. *)
Definition same_variant (a b : MessageContent) : Prop :=
  match a, b with
  | TextContent s, TextContent t => s = t
  | ImageContent f _, ImageContent g _ => f = g
  | _, _ => False
  end.

(** A text over the base64 alphabet, with its padding. *)
Definition is_base64_char (c : ascii) : bool :=
  let n := nat_of_ascii c in
  ((65 <=? n) && (n <=? 90)) || ((97 <=? n) && (n <=? 122))
  || ((48 <=? n) && (n <=? 57)) || (n =? 43) || (n =? 47) || (n =? 61).

Fixpoint is_base64_text (s : string) : bool :=
  match s with
  | EmptyString => true
  | String c r => is_base64_char c && is_base64_text r
  end.

(** One or more lower-case letters: what the pattern takes as the subtype of
    a data URI. *)
Fixpoint all_lower (s : string) : bool :=
  match s with
  | EmptyString => true
  | String c r => JS.is_lower c && all_lower r
  end.

Definition data_uri (subtype payload : string) : string :=
  String.append "data:image/" (String.append subtype (String.append ";base64," payload)).

(** *** The handler *)

Definition SYSTEM_PROMPT : string := "
  You are a personalized travel planning assistant with vision capabilities. When users share images of destinations, 
  landmarks, food, or travel-related content, analyze them and provide relevant travel advice. Create personalized 
  travel planning experiences by greeting users warmly and inquiring about their travel preferences such as destination, 
  dates, budget, and interests. Based on their input and any images they share, suggest tailored itineraries that include 
  popular attractions, local experiences, and hidden gems, along with accommodation options across various price ranges 
  and styles. Provide transportation recommendations, including flights and car rentals, along with estimated costs and 
  travel times. Recommend dining experiences that align with dietary needs, and share insights on local customs, 
  necessary travel documents, and packing essentials. When analyzing images, describe what you see and provide relevant 
  travel recommendations based on the visual content. Highlight the importance of travel insurance, offer real-time 
  updates on weather and events, and allow users to save and modify their itineraries. Additionally, provide a budget 
  tracking feature and the option to book flights and accommodations directly or through trusted platforms, all while 
  maintaining a warm and approachable tone to enhance the excitement of trip planning.
".

Record ConverseCommandInput : Type := {
  modelId : option string;
  system : list string;
  messages : Conversation;
  inferenceConfig : InferenceConfig
}.

(** The response of the inference API, as far as the handler reads it:
    [response.output?.message]. *)
Record ConverseResponse : Type := { output_message : option Message }.

Section WithClient.

(** [process.env.MODEL_ID], and the client's [send]. *)
Variable MODEL_ID : option string.
Variable client_send : ConverseCommandInput -> Settled ConverseResponse.

(** The state of a run of the handler is the list of the commands sent. *)
Definition send (input : ConverseCommandInput) : M (list ConverseCommandInput) ConverseResponse :=
  fun sent =>
    match client_send input with
    | Resolved response => (Normal response, sent ++ [input])
    | Rejected m => (Throw m, sent ++ [input])
    end.

Definition handler (conversation : string + Conversation) : M (list ConverseCommandInput) string :=
  try_catch
    (processedMessages <- lift (processMessages conversation) ;;
     let input :=
       {| modelId := MODEL_ID;
          system := [SYSTEM_PROMPT];
          messages := processedMessages;
          inferenceConfig := INFERENCE_CONFIG |} in
     response <- send input ;;
     match output_message response with
     | None => throw "No message in the response output"
     | Some message => ret (JS.JSON.stringify (Message_to_json message))
     end)
    (fun error => throw error).

End WithClient.

End Handler.

(** ** The chat component

    The handlers of [Chat].  A setter takes effect when it is called; every
    handler reads the state before it writes to it, so it reads what the
    last render showed.  An exchange runs to its end with no other event in
    between. *)

Module Chat.

(** A [File] of the browser, as far as the component reads it. *)
Record File : Type := { type : string; size : N }.

(** The state of the component, one field for each [useState]. *)
Record State : Type := {
  conversation : Conversation;
  inputValue : string;
  selectedImage : option File;
  imagePreview : option string;
  error : string;
  isLoading : bool
}.

Definition initial : State :=
  {| conversation := [];
     inputValue := "";
     selectedImage := None;
     imagePreview := None;
     error := "";
     isLoading := false |}.

(** One error of the list that the query reports.  [message] and
    [errorType] are the properties the component reads; [others] holds the
    rest of the object, which only its JSON text shows. *)
Record GraphQLError : Type := {
  message : option string;
  errorType : option string;
  others : list (string * JS.json)
}.

Definition GraphQLError_to_json (e : GraphQLError) : JS.json :=
  JS.JObj
    ((match message e with Some m => [("message", JS.JStr m)] | None => [] end)
       ++ (match errorType e with Some t => [("errorType", JS.JStr t)] | None => [] end)
       ++ others e).

(** The [data] of a reply: absent, a string, or the message itself. *)
Inductive Data : Type :=
| DataNull
| DataString (s : string)
| DataMessage (m : Message).

Record Reply : Type := { data : Data; errors : option (list GraphQLError) }.

(** One call of [amplifyClient.queries.chat]: the [conversation] argument,
    and the state of the component while the call is awaited. *)
Record ChatCall : Type := { call_conversation : string; call_state : State }.

(** What a handler of the component runs on: the state, the calls of the
    remote query made so far, and the files handed to a [FileReader]. *)
Record World : Type := {
  ui : State;
  calls : list ChatCall;
  reads : list File
}.

Definition start (st : State) : World := {| ui := st; calls := []; reads := [] |}.

Definition update (f : State -> State) : M World unit :=
  modify (fun w => {| ui := f (ui w); calls := calls w; reads := reads w |}).

Definition setConversation (f : Conversation -> Conversation) : M World unit :=
  update (fun st =>
    {| conversation := f (conversation st); inputValue := inputValue st;
       selectedImage := selectedImage st; imagePreview := imagePreview st;
       error := error st; isLoading := isLoading st |}).

Definition setInputValue (v : string) : M World unit :=
  update (fun st =>
    {| conversation := conversation st; inputValue := v;
       selectedImage := selectedImage st; imagePreview := imagePreview st;
       error := error st; isLoading := isLoading st |}).

Definition setSelectedImage (v : option File) : M World unit :=
  update (fun st =>
    {| conversation := conversation st; inputValue := inputValue st;
       selectedImage := v; imagePreview := imagePreview st;
       error := error st; isLoading := isLoading st |}).

Definition setImagePreview (v : option string) : M World unit :=
  update (fun st =>
    {| conversation := conversation st; inputValue := inputValue st;
       selectedImage := selectedImage st; imagePreview := v;
       error := error st; isLoading := isLoading st |}).

Definition setError (v : string) : M World unit :=
  update (fun st =>
    {| conversation := conversation st; inputValue := inputValue st;
       selectedImage := selectedImage st; imagePreview := imagePreview st;
       error := v; isLoading := isLoading st |}).

Definition setIsLoading (v : bool) : M World unit :=
  update (fun st =>
    {| conversation := conversation st; inputValue := inputValue st;
       selectedImage := selectedImage st; imagePreview := imagePreview st;
       error := error st; isLoading := v |}).

Definition state : M World State := fun w => (Normal (ui w), w).

(** [reader.readAsDataURL(file)]: the read is started; its result arrives
    later, as [reader_onload]. *)
Definition readAsDataURL (file : File) : M World unit :=
  modify (fun w => {| ui := ui w; calls := calls w; reads := reads w ++ [file] |}).

Definition handleInputChange (value : string) : M World unit :=
  setError "" ;;
  setInputValue value.

Definition allowedTypes : list string :=
  ["image/jpeg"; "image/jpg"; "image/png"; "image/gif"; "image/webp"].

Definition includes (l : list string) (s : string) : bool :=
  existsb (String.eqb s) l.

(** [file] is [e.target.files?.[0]]. *)
Definition handleImageSelect (file : option File) : M World unit :=
  match file with
  | Some file =>
      if negb (includes allowedTypes (type file)) then
        setError "Please select a valid image file (JPEG, PNG, GIF, or WebP)"
      else if (5 * 1024 * 1024 <? size file)%N then
        setError "Image size must be less than 5MB"
      else
        setSelectedImage (Some file) ;;
        readAsDataURL file ;;
        setError ""
  | None => ret tt
  end.

(** The [onload] of the reader: [e.target?.result] is the data URL. *)
Definition reader_onload (result : string) : M World unit :=
  setImagePreview (Some result).

(** The reset of the file input element shows in no state and is left
    out. *)
Definition removeImage : M World unit :=
  setSelectedImage None ;;
  setImagePreview None.

(** [selectedImage.type.split('/')[1]] *)
Definition format_of (file : File) : option string :=
  nth_error (JS.split "/"%char (type file)) 1.

Definition createUserMessage : M World Message :=
  st <- state ;;
  let content := [] in
  let content :=
    if JS.truthy (JS.trim (inputValue st)) then content ++ [TextContent (inputValue st)]
    else content in
  content <-
    match selectedImage st, imagePreview st with
    | Some file, Some preview =>
        if JS.truthy preview then
          match format_of file with
          | Some format => ret (content ++ [ImageContent format (BytesString preview)])
          | None => untyped
          end
        else ret content
    | _, _ => ret content
    end ;;
  let newUserMessage := {| role := "user"; content := content |} in
  setInputValue "" ;;
  removeImage ;;
  ret newUserMessage.

Definition data_truthy (d : Data) : bool :=
  match d with
  | DataNull => false
  | DataString s => JS.truthy s
  | DataMessage _ => true
  end.

(** [a || b] where [a] is read through [?.] and may be [undefined]. *)
Definition or_opt (a : option string) (b : string) : string :=
  match a with
  | Some s => JS.or_else s b
  | None => b
  end.

(** The message of the error thrown for a reply that is not a success. *)
Definition errorMessage (errors : option (list GraphQLError)) : string :=
  let first :=
    match errors with
    | Some (e :: _) => Some e
    | _ => None
    end in
  or_opt (match first with Some e => message e | None => None end)
    (or_opt (match first with Some e => errorType e | None => None end)
       (JS.or_else
          (match first with
           | Some e => JS.JSON.stringify (GraphQLError_to_json e)
           | None => "undefined"
           end)
          "An unknown error occurred.")).

Section WithClient.

(** [amplifyClient.queries.chat], called with [{ conversation }]. *)
Variable queries_chat : string -> Settled Reply.

Definition chat (conversation_arg : string) : M World Reply :=
  fun w =>
    let w' :=
      {| ui := ui w;
         calls := calls w ++ [{| call_conversation := conversation_arg; call_state := ui w |}];
         reads := reads w |} in
    match queries_chat conversation_arg with
    | Resolved reply => (Normal reply, w')
    | Rejected m => (Throw m, w')
    end.

Definition fetchChatResponse (message : Message) : M World unit :=
  setIsLoading true ;;
  try_finally
    (try_catch
       (st <- state ;;
        let updatedConversation := conversation st ++ [message] in
        reply <- chat (JS.JSON.stringify (Conversation_to_json updatedConversation)) ;;
        if match errors reply with None => true | Some _ => false end && data_truthy (data reply) then
          responseMessage <-
            match data reply with
            | DataString s =>
                match JS.JSON.parse s with
                | Some j =>
                    match Message_of_json j with
                    | Some m => ret m
                    | None => untyped
                    end
                | None => throw "Failed to parse response data"
                end
            | DataMessage m => ret m
            | DataNull => untyped (* not reached: [data] is truthy here *)
            end ;;
          setConversation (fun prevConversation =>
            prevConversation ++ [message; responseMessage])
        else
          throw (errorMessage (errors reply)))
       (fun err => setError err))
    (setIsLoading false).

Definition handleSubmit : M World unit :=
  st <- state ;;
  if JS.truthy (JS.trim (inputValue st))
     || match selectedImage st with Some _ => true | None => false end
  then
    message <- createUserMessage ;;
    fetchChatResponse message
  else ret tt.

End WithClient.

(** *** Vocabulary of the statements *)

(** A run of a handler from a state, with no call made and no read started
    before it. *)
Definition run {A : Type} (c : M World A) (st : State) : Completion A * World :=
  c (start st).

(** The guard of [handleSubmit]. *)
Definition submits (st : State) : bool :=
  JS.truthy (JS.trim (inputValue st))
  || match selectedImage st with Some _ => true | None => false end.

(** The state with the pending text and the pending image cleared. *)
Definition cleared (st : State) : State :=
  {| conversation := conversation st; inputValue := "";
     selectedImage := None; imagePreview := None;
     error := error st; isLoading := isLoading st |}.

(** The state while the call is awaited. *)
Definition awaiting (st : State) : State :=
  {| conversation := conversation st; inputValue := inputValue st;
     selectedImage := selectedImage st; imagePreview := imagePreview st;
     error := error st; isLoading := true |}.

(** The [conversation] argument of the call for a new message. *)
Definition request (st : State) (message : Message) : string :=
  JS.JSON.stringify (Conversation_to_json (conversation st ++ [message])).

(** A reply that is a success, with the message it carries: no error list,
    and [data] either the message itself or a string that parses to it. *)
Inductive Succeeds : Reply -> Message -> Prop :=
| succeeds_message (m : Message) :
    Succeeds {| data := DataMessage m; errors := None |} m
| succeeds_string (s : string) (j : JS.json) (m : Message) :
    JS.truthy s = true ->
    JS.JSON.parse s = Some j ->
    Message_of_json j = Some m ->
    Succeeds {| data := DataString s; errors := None |} m.

(** An outcome of the query that is a failure, with the text of the error
    that the component catches: an error list, no data, a string that does
    not parse, or a rejected call. *)
Inductive Fails : Settled Reply -> string -> Prop :=
| fails_errors (d : Data) (l : list GraphQLError) :
    Fails (Resolved {| data := d; errors := Some l |}) (errorMessage (Some l))
| fails_no_data (d : Data) :
    data_truthy d = false ->
    Fails (Resolved {| data := d; errors := None |}) (errorMessage None)
| fails_parse (s : string) :
    JS.truthy s = true ->
    JS.JSON.parse s = None ->
    Fails (Resolved {| data := DataString s; errors := None |}) "Failed to parse response data"
| fails_rejected (m : string) :
    Fails (Rejected m) m.

(** The error text as the specification words it: the message of the first
    error, else its [errorType], else the generic message. *)
Definition specified_error_text (e : GraphQLError) : string :=
  or_opt (message e) (or_opt (errorType e) "An unknown error occurred.").

End Chat.

(** ** JSON texts and their tokens

    What the reader of [JSON.parse] is expected to find in a text written by
    [JSON.stringify]. *)

Module Wire.

(** The tokens of a sequence, with a comma between two neighbours. *)
Definition sep_tokens (ls : list (list JS.JSON.token)) : list JS.JSON.token :=
  match ls with
  | [] => []
  | x :: r => x ++ flat_map (fun t => JS.JSON.TComma :: t) r
  end.

(** The tokens of a value. *)
Fixpoint tokens (j : JS.json) : list JS.JSON.token :=
  match j with
  | JS.JNull => [JS.JSON.TNull]
  | JS.JBool true => [JS.JSON.TTrue]
  | JS.JBool false => [JS.JSON.TFalse]
  | JS.JNum l => [JS.JSON.TNum l]
  | JS.JStr s => [JS.JSON.TStr s]
  | JS.JArr l => JS.JSON.TLBracket :: sep_tokens (map tokens l) ++ [JS.JSON.TRBracket]
  | JS.JObj m =>
      JS.JSON.TLBrace
        :: sep_tokens (map (fun kv => JS.JSON.TStr (fst kv) :: JS.JSON.TColon :: tokens (snd kv)) m)
        ++ [JS.JSON.TRBrace]
  end.

(** A string in which no surrogate pair is written as two units of three
    bytes: the only form [JSON.parse] and [JSON.stringify] keep. *)
Definition clean (s : string) : bool := String.eqb (JS.JSON.join_surrogates s) s.

(** No name twice. *)
Fixpoint distinct (l : list string) : bool :=
  match l with
  | [] => true
  | k :: r => negb (existsb (String.eqb k) r) && distinct r
  end.

(** A value without numbers, of clean strings, whose objects name each
    property once. *)
Fixpoint plain (j : JS.json) : bool :=
  match j with
  | JS.JNull => true
  | JS.JBool _ => true
  | JS.JNum _ => false
  | JS.JStr s => clean s
  | JS.JArr l => forallb plain l
  | JS.JObj m =>
      forallb (fun kv => clean (fst kv) && plain (snd kv)) m && distinct (map fst m)
  end.

(** The parser reads the tokens of [j] as [j], whatever is open around
    them. *)
Definition reads (j : JS.json) : Prop :=
  forall stack e rest,
    e = JS.JSON.EValue \/ e = JS.JSON.EValueOrEnd ->
    JS.JSON.parse_from (stack, e) (tokens j ++ rest)
    = match JS.JSON.complete j stack with
      | Some st => JS.JSON.parse_from st rest
      | None => None
      end.

End Wire.

(** ** The conversation on the wire *)

Module OnWire.

(** An item as the chat component holds it and as JSON carries it: an image
    has a string for its [bytes], and every string is well formed. *)
Definition item (c : MessageContent) : bool :=
  match c with
  | TextContent text => Wire.clean text
  | ImageContent format (BytesString s) => Wire.clean format && Wire.clean s
  | ImageContent _ (BytesBuffer _) => false
  end.

Definition message (m : Message) : bool :=
  Wire.clean (role m) && forallb item (content m).

Definition conversation (c : Conversation) : bool := forallb message c.

End OnWire.

(** ** The normalized form *)

(** An item that the inference API can take: no image is left with a
    non-empty string for its [bytes]. *)
Definition normalized (c : MessageContent) : Prop :=
  match c with
  | ImageContent _ (BytesString s) => s = ""
  | _ => True
  end.

(** The command that [handler] builds around the normalized messages. *)
Definition converse_command (MODEL_ID : option string) (processedMessages : Conversation)
  : Handler.ConverseCommandInput :=
  {| Handler.modelId := MODEL_ID;
     Handler.system := [Handler.SYSTEM_PROMPT];
     Handler.messages := processedMessages;
     Handler.inferenceConfig := Handler.INFERENCE_CONFIG |}.

(** ** A session of the chat component *)

Module Session.

(** What happens to the component: the user types, picks a file, removes the
    image, a [FileReader] delivers its result, the form is submitted.  A
    submit comes with the behaviour of the remote query during it. *)
Inductive Event : Type :=
| InputChange (value : string)
| ImageSelect (file : option Chat.File)
| RemoveImage
| ReaderOnload (result : string)
| Submit (queries_chat : string -> Settled Chat.Reply).

Definition handle (e : Event) : M Chat.World unit :=
  match e with
  | InputChange value => Chat.handleInputChange value
  | ImageSelect file => Chat.handleImageSelect file
  | RemoveImage => Chat.removeImage
  | ReaderOnload result => Chat.reader_onload result
  | Submit queries_chat => Chat.handleSubmit queries_chat
  end.

Fixpoint handle_all (es : list Event) : M Chat.World unit :=
  match es with
  | [] => ret tt
  | e :: r => (handle e ;; handle_all r)%js
  end.

(** A file that [handleImageSelect] accepts. *)
Definition accepted (f : Chat.File) : Prop :=
  Chat.includes Chat.allowedTypes (Chat.type f) = true
  /\ (Chat.size f <= 5 * 1024 * 1024)%N.

(** A history made of pairs, each opened by a message of the user. *)
Fixpoint paired (c : Conversation) : Prop :=
  match c with
  | [] => True
  | [_] => False
  | u :: _ :: r => role u = "user" /\ paired r
  end.

(** The state in which a remote call was awaited: loading, with the pending
    input cleared. *)
Definition awaited (call : Chat.ChatCall) : Prop :=
  Chat.isLoading (Chat.call_state call) = true
  /\ Chat.inputValue (Chat.call_state call) = ""
  /\ Chat.selectedImage (Chat.call_state call) = None
  /\ Chat.imagePreview (Chat.call_state call) = None.

Record Invariant (w : Chat.World) : Prop := {
  idle : Chat.isLoading (Chat.ui w) = false;
  file_accepted : forall f, Chat.selectedImage (Chat.ui w) = Some f -> accepted f;
  history_paired : paired (Chat.conversation (Chat.ui w));
  history_bounded : length (Chat.conversation (Chat.ui w)) <= 2 * length (Chat.calls w);
  calls_awaited : Forall awaited (Chat.calls w);
  reads_accepted : Forall accepted (Chat.reads w)
}.

(** A remote call that carried the history of its moment and one new
    message of the user, where that history is still the beginning of the
    history [now]. *)
Definition carried (now : Conversation) (call : Chat.ChatCall) : Prop :=
  exists message more,
    role message = "user"
    /\ Chat.call_conversation call = Chat.request (Chat.call_state call) message
    /\ now = Chat.conversation (Chat.call_state call) ++ more.

(** [isDisabled] of the Send button. *)
Definition sendDisabled (st : Chat.State) : bool :=
  Chat.isLoading st
  || (negb (JS.truthy (JS.trim (Chat.inputValue st)))
      && negb (match Chat.selectedImage st with Some _ => true | None => false end)).

(** The text item and the image item of the message that a submit builds
    from a state. *)
Definition text_part (st : Chat.State) : list MessageContent :=
  if JS.truthy (JS.trim (Chat.inputValue st)) then [TextContent (Chat.inputValue st)] else [].

End Session.

(** * Properties *)

(** ** The built-ins *)

Section Builtins.

Lemma drop_prefix_append (p s : string) :
  JS.drop_prefix p (String.append p s) = Some s.
Proof.
  induction p as [|a p IH]; simpl.
  - reflexivity.
  - rewrite Ascii.eqb_refl. exact IH.
Qed.

Lemma drop_prefix_sound (p s r : string) :
  JS.drop_prefix p s = Some r -> s = String.append p r.
Proof.
  revert s. induction p as [|a p IH]; simpl; intros s H.
  - congruence.
  - destruct s as [|b s]; [discriminate|].
    destruct (Ascii.eqb_spec a b) as [->|]; [|discriminate].
    f_equal. apply IH. exact H.
Qed.

Lemma drop_lower_subtype (subtype rest : string) :
  Handler.all_lower subtype = true ->
  JS.drop_lower (String.append subtype (String ";" rest)) = String ";" rest.
Proof.
  induction subtype as [|c t IH]; simpl; intros H.
  - reflexivity.
  - apply andb_true_iff in H as [Hc Ht]. rewrite Hc. apply IH. exact Ht.
Qed.

(** The pattern removes the header of a data URI whose subtype is one or
    more lower-case letters. *)
Lemma replace_data_uri (subtype payload : string) :
  subtype <> "" ->
  Handler.all_lower subtype = true ->
  JS.replace_data_uri_header (Handler.data_uri subtype payload) = payload.
Proof.
  intros Hne Hlow. unfold JS.replace_data_uri_header, Handler.data_uri.
  rewrite drop_prefix_append.
  destruct subtype as [|c t]; [congruence|].
  simpl in Hlow. apply andb_true_iff in Hlow as [Hc Ht].
  cbn [String.append]. rewrite Hc.
  cbn [JS.drop_lower]. rewrite Hc.
  rewrite drop_lower_subtype by exact Ht.
  reflexivity.
Qed.

(** The pattern finds no header in a base64 text. *)
Lemma replace_base64_text (payload : string) :
  Handler.is_base64_text payload = true ->
  JS.replace_data_uri_header payload = payload.
Proof.
  intros H. unfold JS.replace_data_uri_header.
  destruct (JS.drop_prefix "data:image/" payload) as [r|] eqn:E; [|reflexivity].
  apply drop_prefix_sound in E. subst payload.
  cbn in H. discriminate.
Qed.

(** The fuel of [strip_while] is enough: a step takes at least one byte, so
    after as many steps as the string is long nothing is left to strip. *)
Lemma strip_white_head_shorter (s r : string) :
  JS.strip_white_head s = Some r -> String.length r < String.length s.
Proof.
  unfold JS.strip_white_head.
  destruct s as [|c [|d [|e r2]]]; cbn -[Nat.leb Nat.eqb];
    repeat match goal with
           | |- context [if ?b then _ else _] => destruct b
           end;
    intros [= <-]; cbn; lia.
Qed.

Lemma strip_white_last_shorter (s r : string) :
  JS.strip_white_last s = Some r -> String.length r < String.length s.
Proof.
  unfold JS.strip_white_last.
  destruct s as [|c [|d [|e r2]]]; cbn -[Nat.leb Nat.eqb];
    repeat match goal with
           | |- context [if ?b then _ else _] => destruct b
           end;
    intros [= <-]; cbn; lia.
Qed.

Lemma strip_while_settled (strip : string -> option string) :
  (forall s r, strip s = Some r -> String.length r < String.length s) ->
  strip "" = None ->
  forall fuel s,
    String.length s <= fuel -> strip (JS.strip_while strip fuel s) = None.
Proof.
  intros Hshort Hempty. induction fuel as [|fuel IH]; intros s Hlen; cbn.
  - destruct s; [exact Hempty | cbn in Hlen; lia].
  - destruct (strip s) as [r|] eqn:E; [|exact E].
    apply IH. apply Hshort in E. lia.
Qed.

Lemma trimStart_settled (s : string) : JS.strip_white_head (JS.trimStart s) = None.
Proof.
  apply strip_while_settled; [exact strip_white_head_shorter | reflexivity | apply le_n].
Qed.

Lemma truthy_data_uri (subtype payload : string) :
  JS.truthy (Handler.data_uri subtype payload) = true.
Proof. reflexivity. Qed.

Lemma truthy_nonempty (s : string) : s <> "" -> JS.truthy s = true.
Proof. destruct s; [congruence | reflexivity]. Qed.

Lemma truthy_true_nonempty (s : string) : JS.truthy s = true -> s <> "".
Proof. destruct s; [discriminate | congruence]. Qed.

End Builtins.

(** ** The forwarding function *)

Section HandlerProperties.

Lemma processMessage_text_only (m : Message) :
  Forall (fun item => Handler.is_text item = true) (content m) ->
  Handler.processMessage m = m.
Proof.
  destruct m as [r c]. unfold Handler.processMessage. cbn [role content].
  intros H. f_equal.
  induction H as [|item items Hitem _ IH]; cbn [map].
  - reflexivity.
  - rewrite IH. destruct item; [reflexivity | discriminate].
Qed.

Lemma processMessages_text_only (c : Conversation) :
  Handler.text_only c -> map Handler.processMessage c = c.
Proof.
  induction 1 as [|m c Hm _ IH]; cbn [map].
  - reflexivity.
  - rewrite IH, processMessage_text_only by exact Hm. reflexivity.
Qed.

Lemma processContent_same_variant (item : MessageContent) :
  Handler.same_variant item (Handler.processContent item).
Proof.
  destruct item as [text|format [s|b]]; cbn; try reflexivity.
  destruct (JS.truthy s); reflexivity.
Qed.

Lemma processMessages_parsed (input : string + Conversation) (c : Conversation) :
  Handler.parseConversation input = Normal c ->
  Handler.processMessages input = Normal (map Handler.processMessage c).
Proof. unfold Handler.processMessages. intros ->. reflexivity. Qed.

Lemma Forall2_map_self {A B : Type} (f : A -> B) (P : A -> B -> Prop) (l : list A) :
  (forall a, P a (f a)) -> Forall2 P l (map f l).
Proof. intros H. induction l; cbn; constructor; auto. Qed.

End HandlerProperties.

(** C4.  A string that [JSON.parse] rejects makes the normalizer throw the
    error [Invalid conversation format], with no conversation computed, and
    the handler throws the same error without sending any command to the
    inference API. *)
Theorem C4_unparseable_conversation_is_rejected (text : string) :
  JS.JSON.parse text = None ->
  Handler.processMessages (inl text) = Throw "Invalid conversation format"
  /\ forall MODEL_ID client_send sent,
       Handler.handler MODEL_ID client_send (inl text) sent
       = (Throw "Invalid conversation format", sent).
Proof.
  intros H.
  assert (E : Handler.processMessages (inl text) = Throw "Invalid conversation format").
  { unfold Handler.processMessages, Handler.parseConversation. rewrite H. reflexivity. }
  split; [exact E|].
  intros MODEL_ID client_send sent.
  unfold Handler.handler, try_catch, bind, lift. rewrite E. reflexivity.
Qed.

Lemma C4_witness :
  JS.JSON.parse "Show me Paris" = None
  /\ Handler.processMessages (inl "Show me Paris") = Throw "Invalid conversation format"
  /\ forall MODEL_ID client_send sent,
       Handler.handler MODEL_ID client_send (inl "Show me Paris") sent
       = (Throw "Invalid conversation format", sent).
Proof.
  split; [reflexivity|].
  apply (C4_unparseable_conversation_is_rejected "Show me Paris"). reflexivity.
Defined.

(** C5, as stated, fails for the empty base64 string: behind a header it
    becomes the empty [Buffer], and on its own it is falsy and the item is
    returned with its string. *)
Lemma C5_empty_payload_differs :
  Handler.processContent (ImageContent "png" (BytesString (Handler.data_uri "png" "")))
  = ImageContent "png" (BytesBuffer [])
  /\ Handler.processContent (ImageContent "png" (BytesString ""))
     = ImageContent "png" (BytesString "")
  /\ Handler.is_base64_text "" = true
  /\ Handler.processContent (ImageContent "png" (BytesString (Handler.data_uri "png" "")))
     <> Handler.processContent (ImageContent "png" (BytesString "")).
Proof.
  repeat split; try reflexivity. cbn. discriminate.
Qed.

(** C5, amended.  For every image item whose [bytes] is a non-empty base64
    string, normalization yields the same binary payload, the decoding of
    that string, whether the string stands alone or behind a header
    [data:image/<subtype>;base64,] whose subtype is one or more lower-case
    letters, and the [format] of the item is unchanged; the data URI
    [data:image/png;base64,QUJD] gives the three bytes [A B C] with format
    [png]. *)
Theorem C5_data_uri_header_is_optional (format subtype payload : string) :
  payload <> "" ->
  Handler.is_base64_text payload = true ->
  subtype <> "" ->
  Handler.all_lower subtype = true ->
  Handler.processContent (ImageContent format (BytesString (Handler.data_uri subtype payload)))
  = ImageContent format (BytesBuffer (JS.Buffer_from_base64 payload))
  /\ Handler.processContent (ImageContent format (BytesString payload))
     = ImageContent format (BytesBuffer (JS.Buffer_from_base64 payload))
  /\ Handler.processContent (ImageContent "png" (BytesString "data:image/png;base64,QUJD"))
     = ImageContent "png" (BytesBuffer [x41; x42; x43]).
Proof.
  intros Hp Hb Hs Hl. repeat split.
  - unfold Handler.processContent. rewrite truthy_data_uri.
    rewrite replace_data_uri by assumption. reflexivity.
  - unfold Handler.processContent. rewrite truthy_nonempty by exact Hp.
    rewrite replace_base64_text by exact Hb. reflexivity.
Qed.

Lemma C5_witness :
  Handler.processContent (ImageContent "jpeg" (BytesString (Handler.data_uri "jpeg" "QUI=")))
  = ImageContent "jpeg" (BytesBuffer [x41; x42])
  /\ Handler.processContent (ImageContent "jpeg" (BytesString "QUI="))
     = ImageContent "jpeg" (BytesBuffer [x41; x42]).
Proof.
  pose proof (C5_data_uri_header_is_optional "jpeg" "jpeg" "QUI=") as H.
  destruct H as (H1 & H2 & _); try reflexivity; try discriminate.
  split; [exact H1 | exact H2].
Defined.

(** C6.  Normalization returns a conversation of text items as it is, given
    structured or as a string that parses to it; it returns an image item
    whose [bytes] is a [Buffer] as it is; an item that it changes is an image
    item whose [bytes] is a string; and normalizing a second time changes
    nothing, so no payload is decoded twice. *)
Theorem C6_normalization_identity :
  (forall (input : string + Conversation) (c : Conversation),
      Handler.parseConversation input = Normal c ->
      Handler.text_only c ->
      Handler.processMessages input = Normal c)
  /\ (forall format b,
         Handler.processContent (ImageContent format (BytesBuffer b))
         = ImageContent format (BytesBuffer b))
  /\ (forall item,
         Handler.processContent item <> item ->
         exists format s, item = ImageContent format (BytesString s))
  /\ (forall item,
         Handler.processContent (Handler.processContent item) = Handler.processContent item).
Proof.
  split; [|split; [|split]].
  - intros input c Hparse Htext.
    rewrite (processMessages_parsed _ _ Hparse), processMessages_text_only by exact Htext.
    reflexivity.
  - reflexivity.
  - intros [text|format [s|b]] H.
    + exfalso. apply H. reflexivity.
    + exists format, s. reflexivity.
    + exfalso. apply H. reflexivity.
  - intros [text|format [s|b]]; try reflexivity.
    cbn. destruct (JS.truthy s) eqn:E; cbn; [reflexivity | rewrite E; reflexivity].
Qed.

Lemma C6_witness :
  let c := [ {| role := "user"; content := [TextContent "Show me Paris"] |};
             {| role := "assistant"; content := [TextContent "Paris it is."; TextContent "When?"] |} ] in
  Handler.processMessages (inr c) = Normal c
  /\ Handler.processMessages
       (inl (JS.dq "[{'role':'user','content':[{'text':'Show me Paris'}]}]"))
     = Normal [ {| role := "user"; content := [TextContent "Show me Paris"] |} ]
  /\ (exists format s,
         ImageContent "png" (BytesString "QUJD") = ImageContent format (BytesString s)).
Proof.
  destruct C6_normalization_identity as (Hid & _ & Hstr & _).
  intros c. split; [|split].
  - apply Hid; [reflexivity|].
    repeat constructor.
  - apply Hid; [reflexivity|].
    repeat constructor.
  - apply Hstr. cbn. discriminate.
Defined.

(** C7.  For every conversation, given structured or as a string that parses
    to it, normalization returns as many messages, in the same order and
    each with the role of the message at its place; each message has as
    many items as before, and the item at each place is the normalization
    of the item at that place, of the same variant. *)
Theorem C7_normalization_preserves_order (input : string + Conversation) (c : Conversation) :
  Handler.parseConversation input = Normal c ->
  exists c',
    Handler.processMessages input = Normal c'
    /\ length c' = length c
    /\ map role c' = map role c
    /\ Forall2
         (fun m m' =>
            role m' = role m
            /\ length (content m') = length (content m)
            /\ Forall2
                 (fun item item' =>
                    item' = Handler.processContent item
                    /\ Handler.same_variant item item')
                 (content m) (content m'))
         c c'.
Proof.
  intros Hparse. exists (map Handler.processMessage c).
  split; [exact (processMessages_parsed _ _ Hparse)|].
  split; [apply length_map|].
  split; [rewrite map_map; reflexivity|].
  apply Forall2_map_self. intros m.
  split; [reflexivity|].
  split; [apply length_map|].
  cbn [Handler.processMessage content].
  apply Forall2_map_self. intros item.
  split; [reflexivity | apply processContent_same_variant].
Qed.

Lemma C7_witness :
  exists c',
    Handler.processMessages
      (inl (JS.dq "[{'role':'user','content':[{'text':'What is this?'},{'image':{'format':'png','source':{'bytes':'data:image/png;base64,QUJD'}}}]},{'role':'assistant','content':[{'text':'A B C'}]}]"))
    = Normal c'
    /\ c' = [ {| role := "user";
                 content := [TextContent "What is this?";
                             ImageContent "png" (BytesBuffer [x41; x42; x43])] |};
              {| role := "assistant"; content := [TextContent "A B C"] |} ].
Proof.
  edestruct C7_normalization_preserves_order as (c' & H & _).
  2: { exists c'. split; [exact H|]. vm_compute in H. congruence. }
  reflexivity.
Defined.

(** ** The chat component *)

Section ChatProperties.

Import Chat.

Ltac js_unfold :=
  unfold run, start, handleSubmit, createUserMessage, fetchChatResponse, chat,
    removeImage, setConversation, setInputValue, setSelectedImage, setImagePreview,
    setError, setIsLoading, update, state, modify, try_finally, try_catch,
    bind, ret, throw, untyped in *;
  cbn [ui calls reads conversation inputValue selectedImage imagePreview error
       isLoading fst snd] in *.

Ltac js_step :=
  cbn [ui calls reads conversation inputValue selectedImage imagePreview error
       isLoading fst snd data errors data_truthy andb].

Variable queries_chat : string -> Settled Reply.

(** When [createUserMessage] returns a message, the pending text and image
    are cleared and nothing else has changed. *)
Lemma createUserMessage_normal (w w1 : World) (message : Message) :
  createUserMessage w = (Normal message, w1) ->
  w1 = {| ui := cleared (ui w); calls := calls w; reads := reads w |}
  /\ role message = "user".
Proof.
  destruct w as [st cs rs]. js_unfold. unfold cleared.
  destruct (selectedImage st) as [file|], (imagePreview st) as [preview|];
    try (intros [= <- <-]; split; reflexivity).
  destruct (JS.truthy preview); [|intros [= <- <-]; split; reflexivity].
  destruct (format_of file); [|discriminate].
  intros [= <- <-]; split; reflexivity.
Qed.

(** Without a ready preview the message holds the text, when it is not
    blank, and nothing else. *)
Lemma createUserMessage_no_preview (w : World) :
  imagePreview (ui w) = None ->
  createUserMessage w
  = (Normal {| role := "user";
               content := if JS.truthy (JS.trim (inputValue (ui w)))
                          then [TextContent (inputValue (ui w))] else [] |},
     {| ui := cleared (ui w); calls := calls w; reads := reads w |}).
Proof.
  destruct w as [st cs rs]. js_unfold. unfold cleared. intros ->.
  destruct (selectedImage st); reflexivity.
Qed.

Lemma handleSubmit_guarded (w : World) :
  submits (ui w) = false -> handleSubmit queries_chat w = (Normal tt, w).
Proof.
  unfold submits. js_unfold. intros ->. reflexivity.
Qed.

Lemma handleSubmit_submits (w w1 : World) (message : Message) :
  submits (ui w) = true ->
  createUserMessage w = (Normal message, w1) ->
  handleSubmit queries_chat w = fetchChatResponse queries_chat message w1.
Proof.
  unfold submits, handleSubmit, state, bind. intros -> ->. reflexivity.
Qed.

(** Every run of [fetchChatResponse] makes one call, while the component is
    loading. *)
Lemma fetchChatResponse_calls (message : Message) (w : World) :
  calls (snd (fetchChatResponse queries_chat message w))
  = calls w ++ [{| call_conversation := request (ui w) message;
                   call_state := awaiting (ui w) |}].
Proof.
  destruct w as [st cs rs]. unfold request, awaiting. js_unfold.
  destruct (queries_chat _) as [[d errs]|m]; js_step; [|reflexivity].
  destruct errs as [l|]; js_step; [reflexivity|].
  destruct d as [|s|m]; js_step; try reflexivity.
  destruct (JS.truthy s); js_step; [|reflexivity].
  destruct (JS.JSON.parse s) as [j|]; js_step; [|reflexivity].
  destruct (Message_of_json j); reflexivity.
Qed.

Lemma fetchChatResponse_success (message m : Message) (w : World) (reply : Reply) :
  queries_chat (request (ui w) message) = Resolved reply ->
  Succeeds reply m ->
  fetchChatResponse queries_chat message w
  = (Normal tt,
     {| ui := {| conversation := conversation (ui w) ++ [message; m];
                 inputValue := inputValue (ui w);
                 selectedImage := selectedImage (ui w);
                 imagePreview := imagePreview (ui w);
                 error := error (ui w);
                 isLoading := false |};
        calls := calls w ++ [{| call_conversation := request (ui w) message;
                                call_state := awaiting (ui w) |}];
        reads := reads w |}).
Proof.
  destruct w as [st cs rs]. unfold request, awaiting. js_unfold.
  intros Hq Hs. rewrite Hq.
  destruct Hs as [m|s j m Ht Hp Hm]; js_step.
  - reflexivity.
  - rewrite Ht, Hp, Hm. reflexivity.
Qed.

Lemma fetchChatResponse_failure (message : Message) (w : World) (text : string) :
  Fails (queries_chat (request (ui w) message)) text ->
  fetchChatResponse queries_chat message w
  = (Normal tt,
     {| ui := {| conversation := conversation (ui w);
                 inputValue := inputValue (ui w);
                 selectedImage := selectedImage (ui w);
                 imagePreview := imagePreview (ui w);
                 error := text;
                 isLoading := false |};
        calls := calls w ++ [{| call_conversation := request (ui w) message;
                                call_state := awaiting (ui w) |}];
        reads := reads w |}).
Proof.
  destruct w as [st cs rs]. unfold request, awaiting. js_unfold.
  intros Hf.
  remember (queries_chat _) as outcome eqn:Ho. clear Ho.
  destruct Hf as [d l|d Hd|s Ht Hp|m]; js_step.
  - reflexivity.
  - rewrite Hd. reflexivity.
  - rewrite Ht, Hp. reflexivity.
  - reflexivity.
Qed.

(** A submit that passes the guard and builds its message calls the remote
    query once, with the pending input cleared. *)
Lemma handleSubmit_calls (st : State) (w1 : World) (message : Message) :
  submits st = true ->
  run createUserMessage st = (Normal message, w1) ->
  calls (snd (run (handleSubmit queries_chat) st))
  = [{| call_conversation := request st message;
        call_state := awaiting (cleared st) |}].
Proof.
  intros Hguard Hmsg. unfold run in *.
  rewrite (handleSubmit_submits (start st) w1 message Hguard Hmsg).
  apply createUserMessage_normal in Hmsg as [-> _].
  rewrite fetchChatResponse_calls. reflexivity.
Qed.

(** The JSON text of an object is not empty, so the generic message is out
    of reach for an error that is an object. *)
Lemma stringify_error_truthy (e : GraphQLError) :
  JS.truthy (JS.JSON.stringify (GraphQLError_to_json e)) = true.
Proof. reflexivity. Qed.

Lemma or_opt_truthy (a : option string) (b : string) :
  JS.truthy b = true -> JS.truthy (or_opt a b) = true.
Proof.
  intros H. destruct a as [s|]; cbn; [|exact H].
  unfold JS.or_else. destruct (JS.truthy s) eqn:E; [exact E | exact H].
Qed.

Lemma errorMessage_truthy (errs : option (list GraphQLError)) :
  JS.truthy (errorMessage errs) = true.
Proof.
  unfold errorMessage. do 2 apply or_opt_truthy.
  destruct errs as [[|e l]|]; reflexivity.
Qed.

Lemma errorMessage_first (e : GraphQLError) (l : list GraphQLError) :
  errorMessage (Some (e :: l))
  = or_opt (message e) (or_opt (errorType e) (JS.JSON.stringify (GraphQLError_to_json e))).
Proof. reflexivity. Qed.

Lemma Fails_resolved_truthy (reply : Reply) (text : string) :
  Fails (Resolved reply) text -> JS.truthy text = true.
Proof.
  inversion 1; subst; try apply errorMessage_truthy; reflexivity.
Qed.

End ChatProperties.

(** C1, as stated, fails on the error state: a successful submit does not
    touch it.  The text is typed, a JPEG of 6 MB is refused, and the submit
    that follows succeeds with the error of the refusal still set. *)
Lemma C1_error_survives_success :
  let jpeg := {| Chat.type := "image/jpeg"; Chat.size := 6291456 |} in
  let answer := {| role := "assistant"; content := [TextContent "Bonjour"] |} in
  let reply :=
    {| Chat.data := Chat.DataString (JS.dq "{'role':'assistant','content':[{'text':'Bonjour'}]}");
       Chat.errors := None |} in
  let events :=
    (Chat.handleInputChange "Show me Paris" ;;
     Chat.handleImageSelect (Some jpeg) ;;
     Chat.handleSubmit (fun _ => Resolved reply))%js in
  let w := snd (Chat.run events Chat.initial) in
  Chat.Succeeds reply answer
  /\ Chat.conversation (Chat.ui w)
     = [ {| role := "user"; content := [TextContent "Show me Paris"] |}; answer ]
  /\ Chat.inputValue (Chat.ui w) = ""
  /\ Chat.isLoading (Chat.ui w) = false
  /\ Chat.error (Chat.ui w) = "Image size must be less than 5MB"
  /\ Chat.error (Chat.ui w) <> "".
Proof.
  cbv zeta. split.
  - apply (Chat.succeeds_string _
             (JS.JObj [("role", JS.JStr "assistant");
                       ("content", JS.JArr [JS.JObj [("text", JS.JStr "Bonjour")]])]));
      reflexivity.
  - repeat (split; [reflexivity|]). vm_compute. discriminate.
Qed.

(** C1, amended.  After a successful submit (the call returns no error list
    and a message, or a string that parses to one) the history has grown by
    exactly two entries, the new user message and then the assistant
    message; the pending text and the pending image are cleared; [isLoading]
    is false; and the error state is what it was before the submit. *)
Theorem C1_successful_submit
    (queries_chat : string -> Settled Chat.Reply) (st : Chat.State)
    (message answer : Message) (w1 : Chat.World) (reply : Chat.Reply) :
  Chat.submits st = true ->
  Chat.run Chat.createUserMessage st = (Normal message, w1) ->
  queries_chat (Chat.request st message) = Resolved reply ->
  Chat.Succeeds reply answer ->
  Chat.run (Chat.handleSubmit queries_chat) st
  = (Normal tt,
     {| Chat.ui :=
          {| Chat.conversation := Chat.conversation st ++ [message; answer];
             Chat.inputValue := "";
             Chat.selectedImage := None;
             Chat.imagePreview := None;
             Chat.error := Chat.error st;
             Chat.isLoading := false |};
        Chat.calls :=
          [{| Chat.call_conversation := Chat.request st message;
              Chat.call_state := Chat.awaiting (Chat.cleared st) |}];
        Chat.reads := [] |}).
Proof.
  intros Hguard Hmsg Hq Hs. unfold Chat.run in *.
  rewrite (handleSubmit_submits queries_chat (Chat.start st) w1 message Hguard Hmsg).
  apply createUserMessage_normal in Hmsg as [-> _].
  apply (fetchChatResponse_success queries_chat) with (reply := reply); assumption.
Qed.

Lemma C1_witness :
  let st :=
    {| Chat.conversation := []; Chat.inputValue := "Show me Paris";
       Chat.selectedImage := None; Chat.imagePreview := None;
       Chat.error := ""; Chat.isLoading := false |} in
  let message := {| role := "user"; content := [TextContent "Show me Paris"] |} in
  let answer := {| role := "assistant"; content := [TextContent "Bonjour"] |} in
  let text := JS.dq "{'role':'assistant','content':[{'text':'Bonjour'}]}" in
  let reply := {| Chat.data := Chat.DataString text; Chat.errors := None |} in
  Chat.ui (snd (Chat.run (Chat.handleSubmit (fun _ => Resolved reply)) st))
  = {| Chat.conversation := [message; answer]; Chat.inputValue := "";
       Chat.selectedImage := None; Chat.imagePreview := None;
       Chat.error := ""; Chat.isLoading := false |}.
Proof.
  intros st message answer text reply.
  rewrite (@C1_successful_submit (fun _ => Resolved reply) st message answer
             (Chat.start (Chat.cleared st)) reply).
  - reflexivity.
  - reflexivity.
  - reflexivity.
  - reflexivity.
  - apply (Chat.succeeds_string text
             (JS.JObj [("role", JS.JStr "assistant");
                       ("content", JS.JArr [JS.JObj [("text", JS.JStr "Bonjour")]])]));
      reflexivity.
Defined.

(** C2, as stated, fails on the text of the error: for an error with no
    [message] and no [errorType] the component shows the JSON text of the
    error, not the generic message. *)
Lemma C2_bare_error_shows_its_json :
  let e := {| Chat.message := None; Chat.errorType := None;
              Chat.others := [("path", JS.JArr [JS.JStr "chat"])] |} in
  let reply := {| Chat.data := Chat.DataNull; Chat.errors := Some [e] |} in
  let st :=
    {| Chat.conversation := []; Chat.inputValue := "Show me Paris";
       Chat.selectedImage := None; Chat.imagePreview := None;
       Chat.error := ""; Chat.isLoading := false |} in
  let w := snd (Chat.run (Chat.handleSubmit (fun _ => Resolved reply)) st) in
  Chat.conversation (Chat.ui w) = []
  /\ Chat.error (Chat.ui w) = JS.dq "{'path':['chat']}"
  /\ Chat.specified_error_text e = "An unknown error occurred."
  /\ Chat.error (Chat.ui w) <> Chat.specified_error_text e.
Proof.
  cbv zeta. split; [reflexivity|]. split; [reflexivity|]. split; [reflexivity|].
  vm_compute. discriminate.
Qed.

(** C2, amended.  After a failed submit (the call returns an error list, or
    no data, or a string that does not parse) the history is what it was,
    [isLoading] is false, and the error state is a non-empty string: for an
    error list with a first error it is the [message] of that error, else
    its [errorType], else the JSON text of that error; for a string that
    does not parse it is [Failed to parse response data]. *)
Theorem C2_failed_submit
    (queries_chat : string -> Settled Chat.Reply) (st : Chat.State)
    (message : Message) (w1 : Chat.World) (reply : Chat.Reply) (text : string) :
  Chat.submits st = true ->
  Chat.run Chat.createUserMessage st = (Normal message, w1) ->
  queries_chat (Chat.request st message) = Resolved reply ->
  Chat.Fails (Resolved reply) text ->
  Chat.run (Chat.handleSubmit queries_chat) st
  = (Normal tt,
     {| Chat.ui :=
          {| Chat.conversation := Chat.conversation st;
             Chat.inputValue := "";
             Chat.selectedImage := None;
             Chat.imagePreview := None;
             Chat.error := text;
             Chat.isLoading := false |};
        Chat.calls :=
          [{| Chat.call_conversation := Chat.request st message;
              Chat.call_state := Chat.awaiting (Chat.cleared st) |}];
        Chat.reads := [] |})
  /\ text <> ""
  /\ (forall e l,
         Chat.errors reply = Some (e :: l) ->
         text = Chat.or_opt (Chat.message e)
                  (Chat.or_opt (Chat.errorType e)
                     (JS.JSON.stringify (Chat.GraphQLError_to_json e))))
  /\ (Chat.errors reply = None ->
      Chat.data_truthy (Chat.data reply) = true ->
      text = "Failed to parse response data").
Proof.
  intros Hguard Hmsg Hq Hf. split; [|split; [|split]].
  - unfold Chat.run in *.
    rewrite (handleSubmit_submits queries_chat (Chat.start st) w1 message Hguard Hmsg).
    apply createUserMessage_normal in Hmsg as [-> _].
    apply (fetchChatResponse_failure queries_chat).
    change (Chat.Fails (queries_chat (Chat.request st message)) text).
    rewrite Hq. exact Hf.
  - apply truthy_true_nonempty. exact (Fails_resolved_truthy reply text Hf).
  - intros e l He. inversion Hf; subst; cbn [Chat.errors] in He; try discriminate.
    injection He as ->. apply errorMessage_first.
  - intros He Hd. inversion Hf; subst; cbn [Chat.errors Chat.data] in He, Hd;
      try discriminate; [congruence | reflexivity].
Qed.

Lemma C2_witness :
  let e := {| Chat.message := Some ""; Chat.errorType := Some "Lambda:Unhandled";
              Chat.others := [] |} in
  let reply := {| Chat.data := Chat.DataNull; Chat.errors := Some [e] |} in
  let st :=
    {| Chat.conversation := []; Chat.inputValue := "Show me Paris";
       Chat.selectedImage := None; Chat.imagePreview := None;
       Chat.error := ""; Chat.isLoading := false |} in
  Chat.ui (snd (Chat.run (Chat.handleSubmit (fun _ => Resolved reply)) st))
  = {| Chat.conversation := []; Chat.inputValue := "";
       Chat.selectedImage := None; Chat.imagePreview := None;
       Chat.error := "Lambda:Unhandled"; Chat.isLoading := false |}.
Proof.
  intros e reply st.
  destruct (@C2_failed_submit (fun _ => Resolved reply) st
              {| role := "user"; content := [TextContent "Show me Paris"] |}
              (Chat.start (Chat.cleared st)) reply "Lambda:Unhandled") as [H _].
  - reflexivity.
  - reflexivity.
  - reflexivity.
  - exact (Chat.fails_errors Chat.DataNull [e]).
  - rewrite H. reflexivity.
Defined.

(** C3, as stated, fails when a file is selected and its preview is not
    there yet: with blank text the submit still clears the selection and
    calls the remote query. *)
Lemma C3_submit_with_file_and_no_preview :
  let png := {| Chat.type := "image/png"; Chat.size := 1024 |} in
  let st :=
    {| Chat.conversation := []; Chat.inputValue := "  ";
       Chat.selectedImage := Some png; Chat.imagePreview := None;
       Chat.error := ""; Chat.isLoading := false |} in
  let w := snd (Chat.run (Chat.handleSubmit (fun _ => Rejected "Network error")) st) in
  JS.trim (Chat.inputValue st) = ""
  /\ Chat.imagePreview st = None
  /\ Chat.ui (snd (Chat.run (Chat.handleImageSelect (Some png))
                     {| Chat.conversation := []; Chat.inputValue := "  ";
                        Chat.selectedImage := None; Chat.imagePreview := None;
                        Chat.error := ""; Chat.isLoading := false |})) = st
  /\ map Chat.call_conversation (Chat.calls w) = [JS.dq "[{'role':'user','content':[]}]"]
  /\ Chat.selectedImage (Chat.ui w) = None
  /\ Chat.error (Chat.ui w) = "Network error"
  /\ Chat.ui w <> st.
Proof.
  cbv zeta. repeat (split; [reflexivity|]).
  vm_compute. discriminate.
Qed.

(** C3, amended.  Submit does nothing, no change of state and no remote
    call, unless the pending text is not blank or an image file is selected,
    with or without its preview; with blank text and no file nothing
    happens.  When the guard lets the submit through and the user message is
    built, the remote query is called exactly once. *)
Theorem C3_submit_guard (queries_chat : string -> Settled Chat.Reply) (st : Chat.State) :
  (JS.truthy (JS.trim (Chat.inputValue st)) = false ->
   Chat.selectedImage st = None ->
   Chat.run (Chat.handleSubmit queries_chat) st = (Normal tt, Chat.start st))
  /\ (forall message w1,
         JS.truthy (JS.trim (Chat.inputValue st)) = true \/ Chat.selectedImage st <> None ->
         Chat.run Chat.createUserMessage st = (Normal message, w1) ->
         Chat.calls (snd (Chat.run (Chat.handleSubmit queries_chat) st))
         = [{| Chat.call_conversation := Chat.request st message;
               Chat.call_state := Chat.awaiting (Chat.cleared st) |}]).
Proof.
  split.
  - intros Htext Hfile. apply handleSubmit_guarded.
    unfold Chat.submits. cbn [Chat.start Chat.ui]. rewrite Htext, Hfile. reflexivity.
  - intros message w1 Hguard Hmsg.
    apply (handleSubmit_calls queries_chat st w1 message); [|exact Hmsg].
    unfold Chat.submits.
    destruct Hguard as [->|Hfile]; [reflexivity|].
    destruct (Chat.selectedImage st); [apply orb_true_r | congruence].
Qed.

Lemma C3_witness :
  let st :=
    {| Chat.conversation := []; Chat.inputValue := "   ";
       Chat.selectedImage := None; Chat.imagePreview := Some "data:image/png;base64,QUJD";
       Chat.error := ""; Chat.isLoading := false |} in
  Chat.run (Chat.handleSubmit (fun _ => Rejected "Network error")) st
  = (Normal tt, Chat.start st)
  /\ Chat.calls (snd (Chat.run (Chat.handleSubmit (fun _ => Rejected "Network error"))
                        Chat.initial)) = [].
Proof.
  intros st. split.
  - apply (proj1 (C3_submit_guard (fun _ => Rejected "Network error") st)); reflexivity.
  - rewrite (proj1 (C3_submit_guard (fun _ => Rejected "Network error") Chat.initial));
      reflexivity.
Defined.

Section ImageSelection.

Import Chat.

Lemma includes_In (l : list string) (s : string) :
  includes l s = true <-> In s l.
Proof.
  unfold includes. rewrite existsb_exists. split.
  - intros (x & Hx & E). apply String.eqb_eq in E. subst. exact Hx.
  - intros H. exists s. split; [exact H | apply String.eqb_refl].
Qed.

(** A message with an image was built from a selected file and a preview
    that is there. *)
Lemma createUserMessage_image (w w1 : World) (m : Message) (format : string) (bytes : ImageBytes) :
  createUserMessage w = (Normal m, w1) ->
  In (ImageContent format bytes) (content m) ->
  exists file preview,
    selectedImage (ui w) = Some file
    /\ imagePreview (ui w) = Some preview
    /\ JS.truthy preview = true
    /\ format_of file = Some format
    /\ bytes = BytesString preview.
Proof.
  destruct w as [st cs rs].
  unfold createUserMessage, removeImage, setInputValue, setSelectedImage, setImagePreview,
    update, state, modify, bind, ret, untyped.
  cbn [ui calls reads inputValue selectedImage imagePreview].
  assert (Htext : forall (l : list MessageContent),
             In (ImageContent format bytes)
                (if JS.truthy (JS.trim (inputValue st)) then [] ++ [TextContent (inputValue st)] else [])
             -> False).
  { intros _. destruct (JS.truthy _); cbn; intuition discriminate. }
  destruct (selectedImage st) as [file|], (imagePreview st) as [preview|];
    try (intros [= <- _] Hin; cbn [content] in Hin; exfalso; exact (Htext [] Hin)).
  destruct (JS.truthy preview) eqn:Ht;
    [|intros [= <- _] Hin; cbn [content] in Hin; exfalso; exact (Htext [] Hin)].
  destruct (format_of file) as [f|] eqn:Hf; [|discriminate].
  intros [= <- _] Hin. cbn [content] in Hin.
  apply in_app_or in Hin as [Hin|[Hin|[]]]; [exfalso; exact (Htext [] Hin)|].
  injection Hin as <- <-. exists file, preview. repeat split; assumption.
Qed.

End ImageSelection.

(** C8.  [handleImageSelect] accepts a file when its type is one of
    [image/jpeg], [image/jpg], [image/png], [image/gif], [image/webp] and its
    size is at most 5 MiB.  A file of another type, or a larger one, sets
    the error state and changes nothing else: the pending file and the
    preview stay as they were and no read is started.  An accepted file
    becomes the pending file, its read is started and the error is
    cleared. *)
Theorem C8_image_selection_is_validated (w : Chat.World) (file : Chat.File) :
  (forall t, Chat.includes Chat.allowedTypes t = true
             <-> In t ["image/jpeg"; "image/jpg"; "image/png"; "image/gif"; "image/webp"])
  /\ (Chat.includes Chat.allowedTypes (Chat.type file) = false ->
      Chat.handleImageSelect (Some file) w
      = (Normal tt,
         {| Chat.ui :=
              {| Chat.conversation := Chat.conversation (Chat.ui w);
                 Chat.inputValue := Chat.inputValue (Chat.ui w);
                 Chat.selectedImage := Chat.selectedImage (Chat.ui w);
                 Chat.imagePreview := Chat.imagePreview (Chat.ui w);
                 Chat.error := "Please select a valid image file (JPEG, PNG, GIF, or WebP)";
                 Chat.isLoading := Chat.isLoading (Chat.ui w) |};
            Chat.calls := Chat.calls w;
            Chat.reads := Chat.reads w |}))
  /\ (Chat.includes Chat.allowedTypes (Chat.type file) = true ->
      (5 * 1024 * 1024 < Chat.size file)%N ->
      Chat.handleImageSelect (Some file) w
      = (Normal tt,
         {| Chat.ui :=
              {| Chat.conversation := Chat.conversation (Chat.ui w);
                 Chat.inputValue := Chat.inputValue (Chat.ui w);
                 Chat.selectedImage := Chat.selectedImage (Chat.ui w);
                 Chat.imagePreview := Chat.imagePreview (Chat.ui w);
                 Chat.error := "Image size must be less than 5MB";
                 Chat.isLoading := Chat.isLoading (Chat.ui w) |};
            Chat.calls := Chat.calls w;
            Chat.reads := Chat.reads w |}))
  /\ (Chat.includes Chat.allowedTypes (Chat.type file) = true ->
      (Chat.size file <= 5 * 1024 * 1024)%N ->
      Chat.handleImageSelect (Some file) w
      = (Normal tt,
         {| Chat.ui :=
              {| Chat.conversation := Chat.conversation (Chat.ui w);
                 Chat.inputValue := Chat.inputValue (Chat.ui w);
                 Chat.selectedImage := Some file;
                 Chat.imagePreview := Chat.imagePreview (Chat.ui w);
                 Chat.error := "";
                 Chat.isLoading := Chat.isLoading (Chat.ui w) |};
            Chat.calls := Chat.calls w;
            Chat.reads := Chat.reads w ++ [file] |})).
Proof.
  split; [intros t; apply includes_In|].
  destruct w as [st cs rs]. unfold Chat.handleImageSelect.
  split; [|split].
  - intros ->. reflexivity.
  - intros -> Hsize. apply N.ltb_lt in Hsize. cbn [negb]. rewrite Hsize. reflexivity.
  - intros -> Hsize. apply N.ltb_ge in Hsize. cbn [negb]. rewrite Hsize. reflexivity.
Qed.

Lemma C8_witness :
  let jpeg := {| Chat.type := "image/jpeg"; Chat.size := 6 * 1024 * 1024 |} in
  let w := snd (Chat.run (Chat.handleImageSelect (Some jpeg)) Chat.initial) in
  Chat.error (Chat.ui w) = "Image size must be less than 5MB"
  /\ Chat.selectedImage (Chat.ui w) = None
  /\ Chat.imagePreview (Chat.ui w) = None
  /\ Chat.reads w = []
  /\ Chat.error
       (Chat.ui (snd (Chat.run (Chat.handleImageSelect
                                  (Some {| Chat.type := "image/bmp"; Chat.size := 1024 |}))
                        Chat.initial)))
     = "Please select a valid image file (JPEG, PNG, GIF, or WebP)".
Proof.
  intros jpeg w.
  destruct (C8_image_selection_is_validated (Chat.start Chat.initial) jpeg)
    as (_ & _ & Hsize & _).
  destruct (C8_image_selection_is_validated (Chat.start Chat.initial)
              {| Chat.type := "image/bmp"; Chat.size := 1024 |})
    as (_ & Htype & _).
  unfold w, Chat.run. rewrite Hsize, Htype; try reflexivity.
  repeat split.
Defined.

(** C9, as stated, fails when the preview of an earlier file is still in
    the state: the file selected last has no preview of its own yet, and
    the message that a submit sends then holds an image, with the format of
    that file and the data of the earlier one. *)
Lemma C9_earlier_preview_is_sent :
  let png := {| Chat.type := "image/png"; Chat.size := 1024 |} in
  let jpeg := {| Chat.type := "image/jpeg"; Chat.size := 2048 |} in
  let selected :=
    snd ((Chat.handleImageSelect (Some png) ;;
          Chat.reader_onload "data:image/png;base64,QUJD" ;;
          Chat.handleImageSelect (Some jpeg))%js (Chat.start Chat.initial)) in
  Chat.selectedImage (Chat.ui selected) = Some jpeg
  /\ Chat.reads selected = [png; jpeg]
  /\ Chat.imagePreview (Chat.ui selected) = Some "data:image/png;base64,QUJD"
  /\ fst (Chat.createUserMessage selected)
     = Normal {| role := "user";
                 content := [ImageContent "jpeg"
                               (BytesString "data:image/png;base64,QUJD")] |}
  /\ map Chat.call_conversation
       (Chat.calls (snd (Chat.handleSubmit (fun _ => Rejected "Network error") selected)))
     = [JS.dq "[{'role':'user','content':[{'image':{'format':'jpeg','source':{'bytes':'data:image/png;base64,QUJD'}}}]}]"]
  /\ fst (Chat.createUserMessage selected)
     <> Normal {| role := "user"; content := Session.text_part (Chat.ui selected) |}.
Proof.
  cbv zeta. repeat (split; [vm_compute; reflexivity|]). vm_compute. discriminate.
Qed.

(** C9, amended.  With a file selected and no preview in the state (neither
    its own nor one left by an earlier file), the guard lets the submit
    through; the user message that is built and sent holds the text, when it
    is not blank, and no image, so with blank text its content is empty.  A
    message holds an image only when both the file and a preview are
    there. *)
Theorem C9_submit_before_preview
    (queries_chat : string -> Settled Chat.Reply) (st : Chat.State) (file : Chat.File) :
  Chat.selectedImage st = Some file ->
  Chat.imagePreview st = None ->
  let message :=
    {| role := "user";
       content := if JS.truthy (JS.trim (Chat.inputValue st))
                  then [TextContent (Chat.inputValue st)] else [] |} in
  Chat.submits st = true
  /\ Chat.run Chat.createUserMessage st = (Normal message, Chat.start (Chat.cleared st))
  /\ Chat.calls (snd (Chat.run (Chat.handleSubmit queries_chat) st))
     = [{| Chat.call_conversation := Chat.request st message;
           Chat.call_state := Chat.awaiting (Chat.cleared st) |}]
  /\ (JS.trim (Chat.inputValue st) = "" -> content message = [])
  /\ (forall st0 m w1 format bytes,
         Chat.run Chat.createUserMessage st0 = (Normal m, w1) ->
         In (ImageContent format bytes) (content m) ->
         Chat.selectedImage st0 <> None /\ Chat.imagePreview st0 <> None).
Proof.
  intros Hfile Hpreview message.
  assert (Hguard : Chat.submits st = true).
  { unfold Chat.submits. rewrite Hfile. apply orb_true_r. }
  assert (Hmsg : Chat.run Chat.createUserMessage st
                 = (Normal message, Chat.start (Chat.cleared st))).
  { unfold Chat.run. rewrite createUserMessage_no_preview by exact Hpreview. reflexivity. }
  split; [exact Hguard|]. split; [exact Hmsg|]. split; [|split].
  - exact (handleSubmit_calls queries_chat st (Chat.start (Chat.cleared st)) message
             Hguard Hmsg).
  - intros Hblank. unfold message. cbn [content]. rewrite Hblank. reflexivity.
  - intros st0 m w1 format bytes H Hin.
    destruct (createUserMessage_image _ _ _ _ _ H Hin) as (f & p & Hf & Hp & _).
    cbn [Chat.start Chat.ui] in Hf, Hp. split; congruence.
Qed.

Lemma C9_witness :
  let png := {| Chat.type := "image/png"; Chat.size := 1024 |} in
  let st :=
    {| Chat.conversation := []; Chat.inputValue := " ";
       Chat.selectedImage := Some png; Chat.imagePreview := None;
       Chat.error := ""; Chat.isLoading := false |} in
  Chat.submits st = true
  /\ map Chat.call_conversation
       (Chat.calls (snd (Chat.run (Chat.handleSubmit (fun _ => Rejected "Network error")) st)))
     = [JS.dq "[{'role':'user','content':[]}]"].
Proof.
  intros png st.
  destruct (C9_submit_before_preview (fun _ => Rejected "Network error") st png)
    as (Hguard & _ & Hcalls & _); try reflexivity.
  split; [exact Hguard|]. rewrite Hcalls. reflexivity.
Defined.

(** C10.  The pending text and the pending image are cleared when the user
    message is built, and they are cleared in the state in which the remote
    call is awaited.  After a failed submit (an error list, no data, a
    string that does not parse, or a rejected call) they are still cleared:
    the history is what it was, [isLoading] is false again, and only the
    error state has been set. *)
Theorem C10_input_reset_is_not_rolled_back
    (queries_chat : string -> Settled Chat.Reply) (st : Chat.State)
    (message : Message) (w1 : Chat.World) (text : string) :
  Chat.submits st = true ->
  Chat.run Chat.createUserMessage st = (Normal message, w1) ->
  Chat.Fails (queries_chat (Chat.request st message)) text ->
  w1 = Chat.start (Chat.cleared st)
  /\ Chat.inputValue (Chat.ui w1) = ""
  /\ Chat.selectedImage (Chat.ui w1) = None
  /\ Chat.imagePreview (Chat.ui w1) = None
  /\ Chat.run (Chat.handleSubmit queries_chat) st
     = (Normal tt,
        {| Chat.ui :=
             {| Chat.conversation := Chat.conversation st;
                Chat.inputValue := "";
                Chat.selectedImage := None;
                Chat.imagePreview := None;
                Chat.error := text;
                Chat.isLoading := false |};
           Chat.calls :=
             [{| Chat.call_conversation := Chat.request st message;
                 Chat.call_state :=
                   {| Chat.conversation := Chat.conversation st;
                      Chat.inputValue := "";
                      Chat.selectedImage := None;
                      Chat.imagePreview := None;
                      Chat.error := Chat.error st;
                      Chat.isLoading := true |} |}];
           Chat.reads := [] |}).
Proof.
  intros Hguard Hmsg Hf.
  assert (Hw1 : w1 = Chat.start (Chat.cleared st)).
  { unfold Chat.run in Hmsg. apply createUserMessage_normal in Hmsg as [-> _]. reflexivity. }
  subst w1. repeat (split; [reflexivity|]).
  unfold Chat.run in *.
  rewrite (handleSubmit_submits queries_chat (Chat.start st) _ message Hguard Hmsg).
  apply (fetchChatResponse_failure queries_chat). exact Hf.
Qed.

Lemma C10_witness :
  let jpeg := {| Chat.type := "image/jpeg"; Chat.size := 2048 |} in
  let st :=
    {| Chat.conversation := []; Chat.inputValue := "What is this?";
       Chat.selectedImage := Some jpeg;
       Chat.imagePreview := Some "data:image/jpeg;base64,QUJD";
       Chat.error := ""; Chat.isLoading := false |} in
  Chat.ui (snd (Chat.run (Chat.handleSubmit (fun _ => Rejected "Network error")) st))
  = {| Chat.conversation := []; Chat.inputValue := "";
       Chat.selectedImage := None; Chat.imagePreview := None;
       Chat.error := "Network error"; Chat.isLoading := false |}.
Proof.
  intros jpeg st.
  destruct (C10_input_reset_is_not_rolled_back (fun _ => Rejected "Network error") st
              {| role := "user";
                 content := [TextContent "What is this?";
                             ImageContent "jpeg" (BytesString "data:image/jpeg;base64,QUJD")] |}
              (Chat.start (Chat.cleared st)) "Network error")
    as (_ & _ & _ & _ & H).
  - reflexivity.
  - reflexivity.
  - apply Chat.fails_rejected.
  - rewrite H. reflexivity.
Defined.

(** ** Round trips through JSON *)

Lemma json_induction (P : JS.json -> Prop) :
  P JS.JNull ->
  (forall b, P (JS.JBool b)) ->
  (forall l, P (JS.JNum l)) ->
  (forall s, P (JS.JStr s)) ->
  (forall l, Forall P l -> P (JS.JArr l)) ->
  (forall m, Forall (fun kv => P (snd kv)) m -> P (JS.JObj m)) ->
  forall j, P j.
Proof.
  intros Hnull Hbool Hnum Hstr Harr Hobj.
  fix IH 1. intros [ |b|l|s|items|members].
  - exact Hnull.
  - apply Hbool.
  - apply Hnum.
  - apply Hstr.
  - apply Harr. induction items as [|x items IHitems]; constructor; [apply IH | exact IHitems].
  - apply Hobj. induction members as [|[k v] members IHm]; constructor; [apply IH | exact IHm].
Qed.

Lemma append_assoc (a b c : string) :
  String.append (String.append a b) c = String.append a (String.append b c).
Proof. induction a as [|x a IH]; cbn; [reflexivity | rewrite IH; reflexivity]. Qed.

Lemma append_empty_r (a : string) : String.append a "" = a.
Proof. induction a as [|x a IH]; cbn; [reflexivity | rewrite IH; reflexivity]. Qed.

Lemma rev_string_rev_string (s a b : string) :
  JS.rev_string (JS.rev_string s a) b = JS.rev_string a (String.append s b).
Proof.
  revert a. induction s as [|c s IH]; intros a; cbn.
  - reflexivity.
  - rewrite IH. reflexivity.
Qed.

Lemma lex_quote_char (c : ascii) (acc : string) (toks : list JS.JSON.token) (rest : string) :
  JS.JSON.lex_from (JS.JSON.LString acc, toks) (String.append (JS.quote_char c) rest)
  = JS.JSON.lex_from (JS.JSON.LString (String c acc), toks) rest.
Proof.
  destruct c as [b0 b1 b2 b3 b4 b5 b6 b7].
  destruct b0, b1, b2, b3, b4, b5, b6, b7; reflexivity.
Qed.

Lemma lex_quote_body (s acc : string) (toks : list JS.JSON.token) (rest : string) :
  JS.JSON.lex_from (JS.JSON.LString acc, toks) (String.append (JS.quote_body s) rest)
  = JS.JSON.lex_from
      (JS.JSON.LDefault,
       JS.JSON.TStr (JS.JSON.join_surrogates (JS.rev_string (JS.rev_string s acc) "")) :: toks)
      rest.
Proof.
  revert acc. induction s as [|c s IH]; intros acc.
  - reflexivity.
  - cbn [JS.quote_body JS.rev_string]. rewrite append_assoc, lex_quote_char. apply IH.
Qed.

Lemma lex_quote (s : string) (toks : list JS.JSON.token) (rest : string) :
  Wire.clean s = true ->
  JS.JSON.lex_from (JS.JSON.LDefault, toks) (String.append (JS.quote s) rest)
  = JS.JSON.lex_from (JS.JSON.LDefault, JS.JSON.TStr s :: toks) rest.
Proof.
  intros Hclean. unfold JS.quote. cbn [String.append].
  change (JS.JSON.lex_from (JS.JSON.LDefault, toks)
            (String JS.dquote (String.append (JS.quote_body s) rest)))
    with (JS.JSON.lex_from (JS.JSON.LString "", toks)
            (String.append (JS.quote_body s) rest)).
  rewrite lex_quote_body, rev_string_rev_string. cbn [JS.rev_string].
  rewrite append_empty_r.
  apply String.eqb_eq in Hclean. rewrite Hclean. reflexivity.
Qed.

Lemma join_cons (sep x : string) (r : list string) :
  JS.join sep (x :: r)
  = String.append x (fold_right (fun y acc => String.append sep (String.append y acc)) "" r).
Proof.
  revert x. induction r as [|y r IH]; intros x.
  - cbn. rewrite append_empty_r. reflexivity.
  - change (JS.join sep (x :: y :: r))
      with (String.append x (String.append sep (JS.join sep (y :: r)))).
    rewrite IH. reflexivity.
Qed.

Lemma lex_comma (acc : list JS.JSON.token) (x : string) :
  JS.JSON.lex_from (JS.JSON.LDefault, acc) (String ","%char x)
  = JS.JSON.lex_from (JS.JSON.LDefault, JS.JSON.TComma :: acc) x.
Proof. reflexivity. Qed.

Lemma lex_separated (texts : list string) (toks_of : list (list JS.JSON.token))
    (toks : list JS.JSON.token) (rest : string) :
  Forall2
    (fun text ts =>
       forall toks rest,
         JS.JSON.lex_from (JS.JSON.LDefault, toks) (String.append text rest)
         = JS.JSON.lex_from (JS.JSON.LDefault, rev ts ++ toks) rest)
    texts toks_of ->
  JS.JSON.lex_from (JS.JSON.LDefault, toks) (String.append (JS.join "," texts) rest)
  = JS.JSON.lex_from (JS.JSON.LDefault, rev (Wire.sep_tokens toks_of) ++ toks) rest.
Proof.
  intros H. destruct H as [|text ts texts toks_of Hx Hr].
  - reflexivity.
  - rewrite join_cons, append_assoc, Hx. cbn [Wire.sep_tokens].
    rewrite rev_app_distr, <- app_assoc.
    generalize (rev ts ++ toks). clear Hx.
    induction Hr as [|text' ts' texts toks_of Hy _ IH]; intros acc.
    + reflexivity.
    + cbn [fold_right flat_map].
      rewrite (append_assoc "," _ rest).
      change (String.append "," ?x) with (String ","%char x).
      rewrite lex_comma, append_assoc, Hy, IH.
      f_equal. f_equal.
      rewrite rev_app_distr. cbn [rev]. rewrite <- !app_assoc. reflexivity.
Qed.

Lemma Forall2_map_both {A B C : Type} (f : A -> B) (g : A -> C) (P : B -> C -> Prop)
    (l : list A) :
  Forall (fun a => P (f a) (g a)) l -> Forall2 P (map f l) (map g l).
Proof. induction 1; cbn; constructor; assumption. Qed.

Lemma Forall_forallb_impl {A : Type} (P : A -> Prop) (f : A -> bool) (l : list A) :
  Forall (fun a => f a = true -> P a) l -> forallb f l = true -> Forall P l.
Proof.
  induction 1 as [|a l Ha _ IH]; cbn; intros H; constructor;
    apply andb_true_iff in H as [H1 H2]; auto.
Qed.

(** The text of a value is read as the tokens of the value. *)
Lemma lex_stringify (j : JS.json) :
  Wire.plain j = true ->
  forall toks rest,
    JS.JSON.lex_from (JS.JSON.LDefault, toks) (String.append (JS.JSON.stringify j) rest)
    = JS.JSON.lex_from (JS.JSON.LDefault, rev (Wire.tokens j) ++ toks) rest.
Proof.
  induction j as [ |b|l|s|items IH|members IH] using json_induction; intros Hplain toks rest.
  - reflexivity.
  - destruct b; reflexivity.
  - discriminate.
  - cbn [JS.JSON.stringify Wire.tokens rev app]. apply lex_quote. exact Hplain.
  - cbn [Wire.plain] in Hplain.
    cbn [JS.JSON.stringify Wire.tokens].
    change (String.append "[" ?x) with (String "["%char x). cbn [String.append].
    change (JS.JSON.lex_from (JS.JSON.LDefault, toks) (String "["%char ?x))
      with (JS.JSON.lex_from (JS.JSON.LDefault, JS.JSON.TLBracket :: toks) x).
    rewrite append_assoc.
    rewrite (lex_separated (map JS.JSON.stringify items) (map Wire.tokens items)).
    + cbn [rev]. rewrite rev_app_distr. cbn [rev app]. rewrite <- !app_assoc. reflexivity.
    + apply Forall2_map_both.
      apply (Forall_forallb_impl _ Wire.plain); [|exact Hplain].
      exact IH.
  - cbn [Wire.plain] in Hplain. apply andb_true_iff in Hplain as [Hplain _].
    cbn [JS.JSON.stringify Wire.tokens].
    change (String.append "{" ?x) with (String "{"%char x). cbn [String.append].
    change (JS.JSON.lex_from (JS.JSON.LDefault, toks) (String "{"%char ?x))
      with (JS.JSON.lex_from (JS.JSON.LDefault, JS.JSON.TLBrace :: toks) x).
    rewrite append_assoc.
    rewrite (lex_separated _
               (map (fun kv => JS.JSON.TStr (fst kv) :: JS.JSON.TColon :: Wire.tokens (snd kv))
                    members)).
    + cbn [rev]. rewrite rev_app_distr. cbn [rev app]. rewrite <- !app_assoc. reflexivity.
    + apply Forall2_map_both.
      apply (Forall_forallb_impl _ (fun kv => Wire.clean (fst kv) && Wire.plain (snd kv)));
        [|exact Hplain].
      apply Forall_forall. intros [k v] Hin Hkv toks' rest'.
      rewrite Forall_forall in IH. specialize (IH (k, v) Hin).
      cbn [fst snd] in *. apply andb_true_iff in Hkv as [Hk Hv].
      rewrite (append_assoc (JS.quote k)).
      rewrite lex_quote by exact Hk.
      cbn [String.append].
      change (JS.JSON.lex_from (JS.JSON.LDefault, JS.JSON.TStr k :: toks') (String ":"%char ?x))
        with (JS.JSON.lex_from (JS.JSON.LDefault, JS.JSON.TColon :: JS.JSON.TStr k :: toks') x).
      rewrite (IH Hv). cbn [rev]. rewrite <- !app_assoc. reflexivity.
Qed.

Lemma lex_stringify_all (j : JS.json) :
  Wire.plain j = true -> JS.JSON.lex (JS.JSON.stringify j) = Some (Wire.tokens j).
Proof.
  intros H. unfold JS.JSON.lex.
  rewrite <- (append_empty_r (JS.JSON.stringify j)).
  rewrite (lex_stringify j H). cbn [JS.JSON.lex_from].
  rewrite app_nil_r, rev_involutive. reflexivity.
Qed.

Lemma distinct_not_in (a b : list string) (k : string) :
  Wire.distinct (a ++ k :: b) = true -> ~ In k a.
Proof.
  induction a as [|x a IH]; cbn; intros H; [tauto|].
  apply andb_true_iff in H as [Hx Ha]. intros [->|Hin]; [|exact (IH Ha Hin)].
  apply negb_true_iff in Hx. rewrite existsb_app in Hx. cbn in Hx.
  rewrite String.eqb_refl, orb_true_r in Hx. discriminate.
Qed.

Lemma obj_add_fresh (k : string) (v : JS.json) (done : list (string * JS.json)) :
  ~ In k (rev (map fst done)) -> JS.JSON.obj_add k v done = (k, v) :: done.
Proof.
  intros H. unfold JS.JSON.obj_add.
  destruct (existsb _ done) eqn:E; [|reflexivity].
  exfalso. apply H. apply existsb_exists in E as ([k' v'] & Hin & Heq).
  apply String.eqb_eq in Heq. cbn in Heq. subst k'.
  apply in_rev. rewrite rev_involutive. apply (in_map fst) in Hin. exact Hin.
Qed.

Section ParseTokens.

Import JS.JSON.

Import Wire.

Lemma parse_scalar (t : token) (j : JS.json) :
  (forall stack, open_value t stack = complete j stack) ->
  t <> TRBracket ->
  forall stack e rest,
    e = EValue \/ e = EValueOrEnd ->
    parse_from (stack, e) (t :: rest)
    = match complete j stack with
      | Some st => parse_from st rest
      | None => None
      end.
Proof.
  intros Hopen Hne stack e rest [->| ->]; cbn [parse_from parse_step].
  - rewrite Hopen. reflexivity.
  - rewrite <- Hopen. destruct t; try reflexivity. congruence.
Qed.

Lemma parse_items (stack : list frame) (items : list JS.json) :
  Forall reads items ->
  forall done rest,
    parse_from (FArr done :: stack, ENext)
      (flat_map (fun t => TComma :: t) (map Wire.tokens items) ++ TRBracket :: rest)
    = match complete (JS.JArr (rev (rev items ++ done))) stack with
      | Some st => parse_from st rest
      | None => None
      end.
Proof.
  induction 1 as [|y items Hy _ IH]; intros done rest.
  - reflexivity.
  - cbn [map flat_map]. rewrite <- app_assoc.
    change (parse_from (FArr done :: stack, ENext)
              ((TComma :: Wire.tokens y) ++ ?r))
      with (parse_from (FArr done :: stack, EValue) (Wire.tokens y ++ r)).
    rewrite Hy by (left; reflexivity). cbn [complete].
    rewrite IH. cbn [rev]. rewrite <- app_assoc. reflexivity.
Qed.

Lemma parse_members (stack : list frame) (members : list (string * JS.json)) :
  Forall (fun kv => reads (snd kv)) members ->
  forall done rest,
    Wire.distinct (rev (map fst done) ++ map fst members) = true ->
    parse_from (FObj done :: stack, ENext)
      (flat_map (fun t => TComma :: t)
         (map (fun kv => TStr (fst kv) :: TColon :: Wire.tokens (snd kv)) members)
       ++ TRBrace :: rest)
    = match complete (JS.JObj (rev (rev members ++ done))) stack with
      | Some st => parse_from st rest
      | None => None
      end.
Proof.
  induction 1 as [|[k v] members Hv _ IH]; intros done rest Hd.
  - reflexivity.
  - cbn [map flat_map fst snd] in *. rewrite <- app_assoc.
    change (parse_from (FObj done :: stack, ENext)
              ((TComma :: TStr k :: TColon :: Wire.tokens v) ++ ?r))
      with (parse_from (FMember done k :: stack, EValue) (Wire.tokens v ++ r)).
    rewrite Hv by (left; reflexivity). cbn [complete].
    rewrite obj_add_fresh by (eapply distinct_not_in; exact Hd).
    rewrite IH.
    + cbn [rev]. rewrite <- app_assoc. reflexivity.
    + cbn [map fst rev]. rewrite <- app_assoc. exact Hd.
Qed.

(** The tokens of a value are parsed to the value. *)
Lemma parse_tokens (j : JS.json) : Wire.plain j = true -> reads j.
Proof.
  induction j as [ |b|l|s|items IH|members IH] using json_induction; intros Hplain.
  - intros stack e rest He.
    apply (parse_scalar TNull JS.JNull); [reflexivity | discriminate | exact He].
  - intros stack e rest He.
    destruct b;
      [apply (parse_scalar TTrue (JS.JBool true)) | apply (parse_scalar TFalse (JS.JBool false))];
      try reflexivity; try discriminate; exact He.
  - discriminate.
  - intros stack e rest He.
    apply (parse_scalar (TStr s) (JS.JStr s)); [reflexivity | discriminate | exact He].
  - cbn [Wire.plain] in Hplain.
    assert (Hitems : Forall reads items).
    { apply (Forall_forallb_impl _ Wire.plain); assumption. }
    clear IH Hplain. intros stack e rest He.
    cbn [Wire.tokens]. rewrite <- app_comm_cons.
    assert (Hopen : parse_from (stack, e)
                      (TLBracket :: (Wire.sep_tokens (map Wire.tokens items) ++ [TRBracket]) ++ rest)
                    = parse_from (FArr [] :: stack, EValueOrEnd)
                        ((Wire.sep_tokens (map Wire.tokens items) ++ [TRBracket]) ++ rest)).
    { destruct He as [->| ->]; reflexivity. }
    rewrite Hopen. clear Hopen. rewrite <- app_assoc. cbn [app].
    destruct Hitems as [|x items Hx Hitems].
    + reflexivity.
    + cbn [map Wire.sep_tokens]. rewrite <- app_assoc.
      rewrite Hx by (right; reflexivity). cbn [complete].
      rewrite (parse_items stack items Hitems).
      cbn [rev]. rewrite rev_app_distr, rev_involutive. reflexivity.
  - cbn [Wire.plain] in Hplain. apply andb_true_iff in Hplain as [Hplain Hd].
    assert (Hm : Forall (fun kv => reads (snd kv)) members).
    { apply (Forall_forallb_impl _ (fun kv => Wire.clean (fst kv) && Wire.plain (snd kv)));
        [|exact Hplain].
      apply Forall_forall. intros kv Hin Hkv.
      rewrite Forall_forall in IH. apply (IH kv Hin).
      apply andb_true_iff in Hkv as [_ Hkv]. exact Hkv. }
    clear IH Hplain. intros stack e rest He.
    cbn [Wire.tokens]. rewrite <- app_comm_cons.
    set (member := fun kv : string * JS.json =>
                     TStr (fst kv) :: TColon :: Wire.tokens (snd kv)).
    assert (Hopen : parse_from (stack, e)
                      (TLBrace :: (Wire.sep_tokens (map member members) ++ [TRBrace]) ++ rest)
                    = parse_from (FObj [] :: stack, EKeyOrEnd)
                        ((Wire.sep_tokens (map member members) ++ [TRBrace]) ++ rest)).
    { destruct He as [->| ->]; reflexivity. }
    rewrite Hopen. clear Hopen. rewrite <- app_assoc. cbn [app].
    destruct Hm as [|[k v] members Hv Hm].
    + reflexivity.
    + cbn [map Wire.sep_tokens]. rewrite <- app_assoc. unfold member at 1. cbn [fst snd].
      change (parse_from (FObj [] :: stack, EKeyOrEnd)
                ((TStr k :: TColon :: Wire.tokens v) ++ ?r))
        with (parse_from (FMember [] k :: stack, EValue) (Wire.tokens v ++ r)).
      cbn [snd] in Hv. rewrite Hv by (left; reflexivity). cbn [complete].
      change (obj_add k v []) with [(k, v)].
      rewrite (parse_members stack members Hm).
      * cbn [rev]. rewrite rev_app_distr, rev_involutive. reflexivity.
      * cbn [map fst rev app] in *. exact Hd.
Qed.

End ParseTokens.

(** [JSON.parse] reads back what [JSON.stringify] wrote. *)
Lemma parse_stringify (j : JS.json) :
  Wire.plain j = true -> JS.JSON.parse (JS.JSON.stringify j) = Some j.
Proof.
  intros H. unfold JS.JSON.parse. rewrite lex_stringify_all by exact H.
  rewrite <- (app_nil_r (Wire.tokens j)).
  rewrite (parse_tokens j H [] JS.JSON.EValue []) by (left; reflexivity).
  reflexivity.
Qed.

(** ** Examples *)

Example trim_examples :
  JS.trim "  Show me Paris " = "Show me Paris"
  /\ JS.trim "   " = ""
  /\ JS.trim "" = "".
Proof. repeat split. Qed.

Example base64_examples :
  JS.Buffer_from_base64 "QUJD" = [x41; x42; x43]
  /\ JS.Buffer_from_base64 "QUI=" = [x41; x42]
  /\ JS.Buffer_from_base64 "QQ==" = [x41]
  /\ JS.Buffer_from_base64 "" = [].
Proof. repeat split. Qed.

Example header_examples :
  JS.replace_data_uri_header "data:image/png;base64,QUJD" = "QUJD"
  /\ JS.replace_data_uri_header "QUJD" = "QUJD"
  /\ JS.replace_data_uri_header "data:image/svg+xml;base64,QUJD"
     = "data:image/svg+xml;base64,QUJD".
Proof. repeat split. Qed.

Example parse_examples :
  JS.JSON.parse (JS.dq "{'a':[1,-2.5e3,true,null,'x'],'b':{}}")
  = Some (JS.JObj [("a", JS.JArr [JS.JNum "1"; JS.JNum "-2.5e3"; JS.JBool true;
                                  JS.JNull; JS.JStr "x"]);
                   ("b", JS.JObj [])])
  /\ JS.JSON.parse "[1,]" = None
  /\ JS.JSON.parse "01" = None
  /\ JS.JSON.parse (JS.dq "{'a' 1}") = None
  /\ JS.JSON.parse "" = None.
Proof. repeat split. Qed.

(** The request that the component sends parses back to the history with
    the new message. *)
Example request_parses_back :
  let history := [ {| role := "user"; content := [TextContent "Show me Paris"] |};
                   {| role := "assistant"; content := [TextContent "Bonjour"] |} ] in
  let message :=
    {| role := "user";
       content := [TextContent "And this?";
                   ImageContent "png" (BytesString "data:image/png;base64,QUJD")] |} in
  Handler.parseConversation
    (inl (JS.JSON.stringify (Conversation_to_json (history ++ [message]))))
  = Normal (history ++ [message]).
Proof. reflexivity. Qed.

(** One exchange from the text field to the inference API: the handler
    sends the history with the image of the new message decoded. *)
Example exchange_reaches_the_api :
  let png := {| Chat.type := "image/png"; Chat.size := 3 |} in
  let st :=
    {| Chat.conversation := []; Chat.inputValue := "What is this?";
       Chat.selectedImage := Some png;
       Chat.imagePreview := Some "data:image/png;base64,QUJD";
       Chat.error := ""; Chat.isLoading := false |} in
  let answer := {| role := "assistant"; content := [TextContent "A B C"] |} in
  let client_send := fun _ => Resolved {| Handler.output_message := Some answer |} in
  let lambda := fun conversation =>
    match Handler.handler (Some "model") client_send (inl conversation) [] with
    | (Normal text, _) => Resolved {| Chat.data := Chat.DataString text; Chat.errors := None |}
    | (Throw m, _) => Rejected m
    | (Untyped, _) => Rejected ""
    end in
  Chat.conversation (Chat.ui (snd (Chat.run (Chat.handleSubmit lambda) st)))
  = [ {| role := "user";
         content := [TextContent "What is this?";
                     ImageContent "png" (BytesString "data:image/png;base64,QUJD")] |};
      answer ]
  /\ map (fun call =>
            map Handler.messages
              (snd (Handler.handler (Some "model") client_send
                      (inl (Chat.call_conversation call)) [])))
       (Chat.calls (snd (Chat.run (Chat.handleSubmit lambda) st)))
     = [[[ {| role := "user";
              content := [TextContent "What is this?";
                          ImageContent "png" (BytesBuffer [x41; x42; x43])] |} ]]].
Proof. split; reflexivity. Qed.

(** ** The conversation between the component and the forwarding function *)

Section OnTheWire.

Lemma plain_content (c : MessageContent) :
  OnWire.item c = true -> Wire.plain (MessageContent_to_json c) = true.
Proof.
  destruct c as [text|format [s|b]]; cbn; intros H; try discriminate.
  - rewrite H. reflexivity.
  - apply andb_true_iff in H as [-> ->]. reflexivity.
Qed.

Lemma plain_message (m : Message) :
  OnWire.message m = true -> Wire.plain (Message_to_json m) = true.
Proof.
  unfold OnWire.message. intros H. apply andb_true_iff in H as [Hr Hc].
  assert (Hitems : forallb Wire.plain (map MessageContent_to_json (content m)) = true).
  { rewrite forallb_forall in *. intros j Hin.
    apply in_map_iff in Hin as (c & <- & Hin). apply plain_content. auto. }
  unfold Message_to_json. cbn [Wire.plain forallb fst snd map].
  rewrite Hr, Hitems. reflexivity.
Qed.

Lemma plain_conversation (c : Conversation) :
  OnWire.conversation c = true -> Wire.plain (Conversation_to_json c) = true.
Proof.
  unfold OnWire.conversation. intros H. cbn.
  rewrite forallb_forall in *. intros j Hin.
  apply in_map_iff in Hin as (m & <- & Hin). apply plain_message. auto.
Qed.

Lemma content_of_to_json (c : MessageContent) :
  OnWire.item c = true -> MessageContent_of_json (MessageContent_to_json c) = Some c.
Proof.
  destruct c as [text|format [s|b]]; cbn; intros H; try discriminate; reflexivity.
Qed.

Lemma traverse_map {A B : Type} (f : B -> option A) (g : A -> B) (ok : A -> bool) (l : list A) :
  (forall a, ok a = true -> f (g a) = Some a) ->
  forallb ok l = true -> traverse f (map g l) = Some l.
Proof.
  intros Hfg. induction l as [|a l IH]; cbn; intros H; [reflexivity|].
  apply andb_true_iff in H as [Ha Hl]. rewrite (Hfg a Ha), (IH Hl). reflexivity.
Qed.

Lemma message_of_to_json (m : Message) :
  OnWire.message m = true -> Message_of_json (Message_to_json m) = Some m.
Proof.
  unfold OnWire.message. intros H. apply andb_true_iff in H as [_ Hc].
  destruct m as [r c]. cbn [role content] in *.
  unfold Message_of_json, Message_to_json. cbn [role content].
  change (fields ["role"; "content"] _)
    with (Some [JS.JStr r; JS.JArr (map MessageContent_to_json c)]).
  cbn iota. rewrite (traverse_map _ _ OnWire.item); [reflexivity | | exact Hc].
  exact content_of_to_json.
Qed.

Lemma conversation_of_to_json (c : Conversation) :
  OnWire.conversation c = true -> Conversation_of_json (Conversation_to_json c) = Some c.
Proof.
  intros H. cbn. apply (traverse_map _ _ OnWire.message); [|exact H].
  exact message_of_to_json.
Qed.

Lemma parseConversation_stringify (c : Conversation) :
  OnWire.conversation c = true ->
  Handler.parseConversation (inl (JS.JSON.stringify (Conversation_to_json c))) = Normal c.
Proof.
  intros H. unfold Handler.parseConversation.
  rewrite parse_stringify by (apply plain_conversation; exact H).
  rewrite conversation_of_to_json by exact H. reflexivity.
Qed.

Lemma onwire_app (a b : Conversation) :
  OnWire.conversation (a ++ b) = OnWire.conversation a && OnWire.conversation b.
Proof. apply forallb_app. Qed.

End OnTheWire.

(** ** Further properties of the forwarding function *)

Section HandlerContract.

Variable MODEL_ID : option string.
Variable client_send : Handler.ConverseCommandInput -> Settled Handler.ConverseResponse.

Lemma handler_unfold (input : string + Conversation) (sent : list Handler.ConverseCommandInput) :
  Handler.handler MODEL_ID client_send input sent
  = match Handler.processMessages input with
    | Normal c =>
        match client_send (converse_command MODEL_ID c) with
        | Resolved response =>
            match Handler.output_message response with
            | Some m =>
                (Normal (JS.JSON.stringify (Message_to_json m)),
                 sent ++ [converse_command MODEL_ID c])
            | None =>
                (Throw "No message in the response output",
                 sent ++ [converse_command MODEL_ID c])
            end
        | Rejected e => (Throw e, sent ++ [converse_command MODEL_ID c])
        end
    | Throw e => (Throw e, sent)
    | Untyped => (Untyped, sent)
    end.
Proof.
  unfold Handler.handler, Handler.send, try_catch, bind, lift, ret, throw, converse_command.
  destruct (Handler.processMessages input) as [c|e|]; try reflexivity.
  destruct (client_send _) as [[[m|]]|e]; reflexivity.
Qed.

Lemma processContent_normalized (item : MessageContent) :
  normalized (Handler.processContent item).
Proof.
  destruct item as [text|format [s|b]]; cbn; try exact I.
  destruct s; cbn; [reflexivity | exact I].
Qed.

Lemma processMessages_normalized (input : string + Conversation) (c : Conversation) :
  Handler.processMessages input = Normal c ->
  Forall (fun m => Forall normalized (content m)) c.
Proof.
  unfold Handler.processMessages.
  destruct (Handler.parseConversation input) as [parsed|e|]; try discriminate.
  intros [= <-]. apply Forall_forall. intros m Hin.
  apply in_map_iff in Hin as (m0 & <- & _). cbn [Handler.processMessage content].
  apply Forall_forall. intros item Hin.
  apply in_map_iff in Hin as (i0 & <- & _). apply processContent_normalized.
Qed.

End HandlerContract.

(** X1.  Whatever the thrown error, [handler] lets it through with its
    message: an error of the normalizer before any command is sent, a
    rejection of the client and a response without a message after exactly
    one command; and a response with a message is returned as its JSON
    text. *)
Theorem handler_result
    (MODEL_ID : option string)
    (client_send : Handler.ConverseCommandInput -> Settled Handler.ConverseResponse)
    (input : string + Conversation) (c : Conversation)
    (sent : list Handler.ConverseCommandInput) :
  Handler.processMessages input = Normal c ->
  (forall e, client_send (converse_command MODEL_ID c) = Rejected e ->
     Handler.handler MODEL_ID client_send input sent
     = (Throw e, sent ++ [converse_command MODEL_ID c]))
  /\ (client_send (converse_command MODEL_ID c)
      = Resolved {| Handler.output_message := None |} ->
      Handler.handler MODEL_ID client_send input sent
      = (Throw "No message in the response output", sent ++ [converse_command MODEL_ID c]))
  /\ (forall m,
        client_send (converse_command MODEL_ID c)
        = Resolved {| Handler.output_message := Some m |} ->
        Handler.handler MODEL_ID client_send input sent
        = (Normal (JS.JSON.stringify (Message_to_json m)),
           sent ++ [converse_command MODEL_ID c])).
Proof.
  intros Hc. rewrite handler_unfold, Hc.
  repeat split; [intros e H | intros H | intros m H]; rewrite H; reflexivity.
Qed.

Lemma handler_result_witness :
  let input := inl (JS.dq "[{'role':'user','content':[{'text':'Show me Paris'}]}]") in
  let c := [ {| role := "user"; content := [TextContent "Show me Paris"] |} ] in
  let answer := {| role := "assistant"; content := [TextContent "Bonjour"] |} in
  Handler.handler (Some "model") (fun _ => Rejected "ThrottlingException") input []
  = (Throw "ThrottlingException", [converse_command (Some "model") c])
  /\ fst (Handler.handler (Some "model")
            (fun _ => Resolved {| Handler.output_message := Some answer |}) input [])
     = Normal (JS.dq "{'role':'assistant','content':[{'text':'Bonjour'}]}").
Proof.
  intros input c answer. split.
  - apply (proj1 (handler_result (Some "model") (fun _ => Rejected "ThrottlingException")
                    input c [] eq_refl)).
    reflexivity.
  - rewrite (proj2 (proj2 (handler_result (Some "model")
                             (fun _ => Resolved {| Handler.output_message := Some answer |})
                             input c [] eq_refl)) answer eq_refl).
    reflexivity.
Defined.

(** X2.  In any run, [handler] sends at most one command; a command that it
    sends carries the model id of the environment, the one system prompt,
    the fixed inference configuration and the normalized conversation, in
    which no image is left with a non-empty string for its bytes; and it
    returns a text only after a command was sent. *)
Theorem handler_sends_one_normalized_command
    (MODEL_ID : option string)
    (client_send : Handler.ConverseCommandInput -> Settled Handler.ConverseResponse)
    (input : string + Conversation) (sent : list Handler.ConverseCommandInput) :
  exists commands,
    snd (Handler.handler MODEL_ID client_send input sent) = sent ++ commands
    /\ length commands <= 1
    /\ Forall
         (fun command =>
            Handler.modelId command = MODEL_ID
            /\ Handler.system command = [Handler.SYSTEM_PROMPT]
            /\ Handler.inferenceConfig command = Handler.INFERENCE_CONFIG
            /\ Handler.processMessages input = Normal (Handler.messages command)
            /\ Forall (fun m => Forall normalized (content m)) (Handler.messages command))
         commands
    /\ (forall text,
          fst (Handler.handler MODEL_ID client_send input sent) = Normal text ->
          length commands = 1).
Proof.
  rewrite handler_unfold.
  destruct (Handler.processMessages input) as [c|e|] eqn:Hc.
  - exists [converse_command MODEL_ID c].
    assert (Hn := processMessages_normalized input c Hc).
    destruct (client_send _) as [[[m|]]|e]; cbn [fst snd Handler.output_message];
      (split; [reflexivity|]); (split; [apply le_n|]);
      (split; [repeat constructor; assumption|]); reflexivity.
  - exists []. cbn. rewrite app_nil_r. repeat split; auto. discriminate.
  - exists []. cbn. rewrite app_nil_r. repeat split; auto. discriminate.
Qed.

(** X3.  A conversation that the chat component holds (images with string
    bytes) is normalized alike whether it reaches [processMessages] as the
    string that [JSON.stringify] writes for it or as the structure itself. *)
Theorem string_and_structured_input_agree (c : Conversation) :
  OnWire.conversation c = true ->
  Handler.processMessages (inl (JS.JSON.stringify (Conversation_to_json c)))
  = Handler.processMessages (inr c).
Proof.
  intros H. unfold Handler.processMessages.
  rewrite parseConversation_stringify by exact H. reflexivity.
Qed.

Lemma string_and_structured_input_agree_witness :
  let c := [ {| role := "user";
                content := [TextContent "What is this?";
                            ImageContent "png" (BytesString "data:image/png;base64,QUJD")] |} ] in
  Handler.processMessages (inl (JS.JSON.stringify (Conversation_to_json c)))
  = Normal [ {| role := "user";
                content := [TextContent "What is this?";
                            ImageContent "png" (BytesBuffer [x41; x42; x43])] |} ].
Proof.
  intros c. rewrite (string_and_structured_input_agree c eq_refl). reflexivity.
Defined.

(** ** Further properties of the chat component *)

Section SessionProperties.

Import Chat.

Ltac js_unfold :=
  unfold run, start, handleSubmit, createUserMessage, fetchChatResponse, chat,
    handleInputChange, reader_onload, readAsDataURL,
    removeImage, setConversation, setInputValue, setSelectedImage, setImagePreview,
    setError, setIsLoading, update, state, modify, try_finally, try_catch,
    bind, ret, throw, untyped in *;
  cbn [ui calls reads conversation inputValue selectedImage imagePreview error
       isLoading fst snd] in *.

(** The type of an accepted file is [image/] and a subtype of lower-case
    letters, which is the format that [createUserMessage] takes from it. *)
Lemma accepted_format (f : File) :
  includes allowedTypes (type f) = true ->
  exists subtype,
    type f = String.append "image/" subtype
    /\ format_of f = Some subtype
    /\ In subtype ["jpeg"; "jpg"; "png"; "gif"; "webp"]
    /\ Handler.all_lower subtype = true
    /\ subtype <> "".
Proof.
  intros H. apply includes_In in H. destruct f as [t sz]. cbn [type] in *.
  unfold format_of. cbn [type].
  destruct H as [<-|[<-|[<-|[<-|[<-|[]]]]]];
    [exists "jpeg" | exists "jpg" | exists "png" | exists "gif" | exists "webp"];
    (repeat split; [cbn; tauto | discriminate]).
Qed.

Lemma createUserMessage_with_image (w : World) (f : File) (p : string) :
  selectedImage (ui w) = Some f ->
  includes allowedTypes (type f) = true ->
  imagePreview (ui w) = Some p ->
  JS.truthy p = true ->
  exists subtype,
    type f = String.append "image/" subtype
    /\ In subtype ["jpeg"; "jpg"; "png"; "gif"; "webp"]
    /\ Handler.all_lower subtype = true
    /\ subtype <> ""
    /\ createUserMessage w
       = (Normal {| role := "user";
                    content := Session.text_part (ui w)
                               ++ [ImageContent subtype (BytesString p)] |},
          {| ui := cleared (ui w); calls := calls w; reads := reads w |}).
Proof.
  intros Hf Ha Hp Ht.
  destruct (accepted_format f Ha) as (subtype & Htype & Hformat & Hin & Hlow & Hne).
  exists subtype. repeat (split; [assumption|]).
  destruct w as [st cs rs]. js_unfold. unfold cleared, Session.text_part.
  rewrite Hf, Hp, Ht, Hformat. destruct (JS.truthy (JS.trim _)); reflexivity.
Qed.

(** With an accepted file, or none, [createUserMessage] returns its
    message. *)
Lemma createUserMessage_returns (w : World) :
  (forall f, selectedImage (ui w) = Some f -> includes allowedTypes (type f) = true) ->
  exists message,
    createUserMessage w
    = (Normal message, {| ui := cleared (ui w); calls := calls w; reads := reads w |}).
Proof.
  intros Hfile.
  destruct (selectedImage (ui w)) as [f|] eqn:Hf.
  - destruct (imagePreview (ui w)) as [p|] eqn:Hp.
    + destruct (JS.truthy p) eqn:Ht.
      * destruct (createUserMessage_with_image w f p Hf (Hfile f eq_refl) Hp Ht)
          as (subtype & _ & _ & _ & _ & H).
        eexists. exact H.
      * destruct w as [st cs rs]. js_unfold. unfold cleared.
        rewrite Hf, Hp, Ht. eexists. reflexivity.
    + eexists. apply createUserMessage_no_preview. exact Hp.
  - destruct w as [st cs rs]. js_unfold. unfold cleared.
    rewrite Hf. eexists. reflexivity.
Qed.

(** An outcome of the remote query is a success, a failure, or a string
    that parses to something else than a message. *)
Lemma outcome_cases (o : Settled Reply) :
  (exists reply m, o = Resolved reply /\ Succeeds reply m)
  \/ (exists text, Fails o text)
  \/ (exists s j,
        o = Resolved {| data := DataString s; errors := None |}
        /\ JS.truthy s = true
        /\ JS.JSON.parse s = Some j
        /\ Message_of_json j = None).
Proof.
  destruct o as [[d [l|]]|e].
  - right. left. eexists. apply fails_errors.
  - destruct d as [|s|m].
    + right. left. eexists. apply fails_no_data. reflexivity.
    + destruct (JS.truthy s) eqn:Ht.
      * destruct (JS.JSON.parse s) as [j|] eqn:Hp.
        -- destruct (Message_of_json j) as [m|] eqn:Hm.
           ++ left. exists {| data := DataString s; errors := None |}, m.
              split; [reflexivity|]. eapply succeeds_string; eassumption.
           ++ right. right. exists s, j. repeat split; assumption.
        -- right. left. eexists. apply fails_parse; assumption.
      * right. left. eexists. apply fails_no_data. exact Ht.
    + left. exists {| data := DataMessage m; errors := None |}, m.
      split; [reflexivity | constructor].
  - right. left. eexists. apply fails_rejected.
Qed.

Lemma fetchChatResponse_untyped (q : string -> Settled Reply) (message : Message)
    (w : World) (s : string) (j : JS.json) :
  q (request (ui w) message) = Resolved {| data := DataString s; errors := None |} ->
  JS.truthy s = true ->
  JS.JSON.parse s = Some j ->
  Message_of_json j = None ->
  fst (fetchChatResponse q message w) = Untyped.
Proof.
  destruct w as [st cs rs]. unfold request. js_unfold.
  intros Hq Ht Hp Hm. rewrite Hq.
  cbn [data errors data_truthy andb]. rewrite Ht, Hp, Hm. reflexivity.
Qed.

(** How a run of [fetchChatResponse] ends. *)
Lemma fetchChatResponse_ends (q : string -> Settled Reply) (message : Message) (w : World) :
  (exists m text,
      fetchChatResponse q message w
      = (Normal tt,
         {| ui := {| conversation := conversation (ui w) ++ m;
                     inputValue := inputValue (ui w);
                     selectedImage := selectedImage (ui w);
                     imagePreview := imagePreview (ui w);
                     error := text;
                     isLoading := false |};
            calls := calls w ++ [{| call_conversation := request (ui w) message;
                                    call_state := awaiting (ui w) |}];
            reads := reads w |})
      /\ ((exists answer, m = [message; answer] /\ text = error (ui w)) \/ m = []))
  \/ fst (fetchChatResponse q message w) = Untyped.
Proof.
  destruct (outcome_cases (q (request (ui w) message)))
    as [(reply & m & Hq & Hs)|[(text & Hf)|(s & j & Hq & Ht & Hp & Hm)]].
  - left. exists [message; m], (error (ui w)).
    split; [apply (fetchChatResponse_success q message m w reply Hq Hs)|].
    left. exists m. split; reflexivity.
  - left. exists [], text. rewrite app_nil_r.
    split; [apply (fetchChatResponse_failure q message w text Hf) | right; reflexivity].
  - right. apply (fetchChatResponse_untyped q message w s j); assumption.
Qed.

Lemma paired_app (u a : Message) (c : Conversation) :
  role u = "user" ->
  (Session.paired c -> Session.paired (c ++ [u; a]))
  /\ (forall x, Session.paired (x :: c) -> Session.paired (x :: c ++ [u; a])).
Proof.
  intros Hu. induction c as [|y c [IH1 IH2]].
  - split; [intros _; cbn; tauto | intros x []].
  - split.
    + apply IH2.
    + intros x [Hx Hc]. split; [exact Hx | apply IH1; exact Hc].
Qed.

End SessionProperties.

Section SessionInvariants.

Import Chat.

Ltac js_unfold :=
  unfold run, start, handleSubmit, createUserMessage, fetchChatResponse, chat,
    handleInputChange, reader_onload, readAsDataURL,
    removeImage, setConversation, setInputValue, setSelectedImage, setImagePreview,
    setError, setIsLoading, update, state, modify, try_finally, try_catch,
    bind, ret, throw, untyped in *;
  cbn [ui calls reads conversation inputValue selectedImage imagePreview error
       isLoading fst snd] in *.

(** How a run of [handleSubmit] ends: as a no-op, or with one call made,
    the pending input cleared, loading over, and either two messages more
    and the error untouched, or the history untouched; or on a reply or a
    file outside the types. *)
Lemma handleSubmit_ends (q : string -> Settled Reply) (w : World) :
  (submits (ui w) = false /\ handleSubmit q w = (Normal tt, w))
  \/ (exists message more text,
        submits (ui w) = true
        /\ role message = "user"
        /\ handleSubmit q w
           = (Normal tt,
              {| ui := {| conversation := conversation (ui w) ++ more;
                          inputValue := "";
                          selectedImage := None;
                          imagePreview := None;
                          error := text;
                          isLoading := false |};
                 calls := calls w ++ [{| call_conversation := request (ui w) message;
                                         call_state := awaiting (cleared (ui w)) |}];
                 reads := reads w |})
        /\ ((exists answer, more = [message; answer] /\ text = error (ui w)) \/ more = []))
  \/ fst (handleSubmit q w) = Untyped.
Proof.
  destruct (submits (ui w)) eqn:Hguard.
  - right.
    destruct (createUserMessage w) as [[message|e|] w1] eqn:Hmsg.
    + rewrite (handleSubmit_submits q w w1 message Hguard Hmsg).
      apply createUserMessage_normal in Hmsg as [-> Hrole].
      destruct (fetchChatResponse_ends q message
                  {| ui := cleared (ui w); calls := calls w; reads := reads w |})
        as [(more & text & H & Hmore)|H]; [left | right; exact H].
      exists message, more, text.
      split; [reflexivity|]. split; [exact Hrole|]. split; [exact H | exact Hmore].
    + exfalso. destruct w as [st cs rs]. js_unfold.
      destruct (selectedImage st), (imagePreview st); try discriminate.
      destruct (JS.truthy s); [|discriminate]. destruct (format_of f); discriminate.
    + right. unfold handleSubmit, bind, state. unfold submits in Hguard.
      rewrite Hguard, Hmsg. reflexivity.
  - left. split; [reflexivity | apply handleSubmit_guarded; exact Hguard].
Qed.

Lemma handle_preserves (e : Session.Event) (w w1 : World) :
  Session.Invariant w ->
  Session.handle e w = (Normal tt, w1) ->
  Session.Invariant w1.
Proof.
  intros [Hidle Hfile Hpair Hbound Hcalls Hreads] H.
  destruct e as [value|[file|]| |result|q]; cbn [Session.handle] in H.
  - destruct w as [st cs rs]. js_unfold. injection H as <-.
    constructor; assumption.
  - destruct w as [st cs rs]. unfold handleImageSelect in H.
    destruct (includes allowedTypes (type file)) eqn:Ha; cbn [negb] in H.
    + destruct (5 * 1024 * 1024 <? size file)%N eqn:Hs.
      * js_unfold. injection H as <-. constructor; assumption.
      * js_unfold. injection H as <-. apply N.ltb_ge in Hs.
        constructor; cbn [ui calls reads conversation selectedImage isLoading]; try assumption.
        -- intros f [= <-]. split; assumption.
        -- apply Forall_app. split; [assumption|]. repeat constructor; assumption.
    + js_unfold. injection H as <-. constructor; assumption.
  - injection H as <-. constructor; assumption.
  - destruct w as [st cs rs]. js_unfold. injection H as <-.
    constructor; cbn [ui calls reads conversation selectedImage isLoading]; try assumption.
    discriminate.
  - destruct w as [st cs rs]. js_unfold. injection H as <-.
    constructor; assumption.
  - destruct (handleSubmit_ends q w)
      as [[_ H0]|[(message & more & text & _ & Hrole & H0 & Hmore)|H0]].
    + rewrite H0 in H. injection H as <-. constructor; assumption.
    + rewrite H0 in H. injection H as <-.
      constructor; cbn [ui calls reads conversation selectedImage isLoading].
      * reflexivity.
      * discriminate.
      * destruct Hmore as [(answer & -> & _)| ->].
        -- apply (paired_app message answer _ Hrole). exact Hpair.
        -- rewrite app_nil_r. exact Hpair.
      * rewrite !length_app. cbn [length].
        destruct Hmore as [(answer & -> & _)| ->]; cbn [length]; lia.
      * apply Forall_app. split; [assumption|]. repeat constructor.
      * assumption.
    + rewrite H in H0. discriminate.
Qed.

Lemma handle_all_preserves (es : list Session.Event) (w w1 : World) :
  Session.Invariant w ->
  Session.handle_all es w = (Normal tt, w1) ->
  Session.Invariant w1.
Proof.
  revert w. induction es as [|e es IH]; intros w Hinv H.
  - injection H as <-. exact Hinv.
  - cbn [Session.handle_all] in H. unfold bind in H.
    destruct (Session.handle e w) as [[[]|m|] w'] eqn:He; try discriminate.
    apply (IH w'); [|exact H]. apply (handle_preserves e w w' Hinv He).
Qed.

Lemma Invariant_initial : Session.Invariant (start initial).
Proof.
  constructor; cbn; try constructor; try discriminate; auto.
Qed.

End SessionInvariants.

Section SessionSteps.

Import Chat.

Lemma handle_extends (e : Session.Event) (w w1 : World) :
  Session.handle e w = (Normal tt, w1) ->
  exists more newcalls newreads,
    conversation (ui w1) = conversation (ui w) ++ more
    /\ calls w1 = calls w ++ newcalls
    /\ reads w1 = reads w ++ newreads
    /\ length more <= 2 * length newcalls
    /\ ((forall q, e <> Session.Submit q) -> newcalls = []).
Proof.
  intros H.
  destruct e as [value|[file|]| |result|q]; cbn [Session.handle] in H.
  - destruct w as [st cs rs]. unfold handleInputChange, setError, setInputValue, update,
      modify, bind in H. injection H as <-. exists [], [], [].
    cbn. rewrite !app_nil_r. repeat split; auto.
  - destruct w as [st cs rs]. unfold handleImageSelect in H.
    destruct (negb _); [|destruct (_ <? _)%N];
      unfold setError, setSelectedImage, readAsDataURL, update, modify, bind in H;
      injection H as <-;
      [exists [], [], [] | exists [], [], [] | exists [], [], [file]];
      cbn; rewrite ?app_nil_r; repeat split; auto.
  - injection H as <-. exists [], [], []. rewrite !app_nil_r. repeat split; auto.
  - destruct w as [st cs rs]. unfold removeImage, setSelectedImage, setImagePreview, update,
      modify, bind in H. injection H as <-. exists [], [], [].
    cbn. rewrite !app_nil_r. repeat split; auto.
  - destruct w as [st cs rs]. unfold reader_onload, setImagePreview, update, modify in H.
    injection H as <-. exists [], [], [].
    cbn. rewrite !app_nil_r. repeat split; auto.
  - destruct (handleSubmit_ends q w)
      as [[_ H0]|[(message & more & text & _ & _ & H0 & Hmore)|H0]].
    + rewrite H0 in H. injection H as <-. exists [], [], [].
      rewrite !app_nil_r. repeat split; auto.
    + rewrite H0 in H. injection H as <-.
      exists more, [{| call_conversation := request (ui w) message;
                       call_state := awaiting (cleared (ui w)) |}], [].
      cbn [ui calls reads conversation]. rewrite app_nil_r.
      repeat split; auto.
      * destruct Hmore as [(answer & -> & _)| ->]; cbn; lia.
      * intros Hq'. exfalso. apply (Hq' q). reflexivity.
    + rewrite H in H0. discriminate.
Qed.

End SessionSteps.

(** X4.  From the first render on, after any events handled to their end,
    the component is not loading; a pending file is of an allowed type and
    at most 5 MiB; the history is made of pairs, each opened by a message
    of role [user], and has at most two messages for each remote call;
    every remote call was awaited with the loading flag set and the pending
    input cleared; and every file handed to a reader had been accepted. *)
Theorem session_invariant (es : list Session.Event) (w : Chat.World) :
  Session.handle_all es (Chat.start Chat.initial) = (Normal tt, w) ->
  Session.Invariant w.
Proof.
  apply handle_all_preserves. exact Invariant_initial.
Qed.

Lemma session_invariant_witness :
  let jpeg := {| Chat.type := "image/jpeg"; Chat.size := 2048 |} in
  let answer := {| role := "assistant"; content := [TextContent "Bonjour"] |} in
  let q := fun _ : string =>
             Resolved {| Chat.data := Chat.DataMessage answer; Chat.errors := None |} in
  let es := [Session.InputChange "What is this?";
             Session.ImageSelect (Some jpeg);
             Session.ReaderOnload "data:image/jpeg;base64,QUJD";
             Session.Submit q;
             Session.InputChange "And this?";
             Session.Submit (fun _ => Rejected "Network error")] in
  Session.Invariant (snd (Session.handle_all es (Chat.start Chat.initial)))
  /\ length (Chat.conversation
               (Chat.ui (snd (Session.handle_all es (Chat.start Chat.initial))))) = 2
  /\ length (Chat.calls (snd (Session.handle_all es (Chat.start Chat.initial)))) = 2.
Proof.
  intros jpeg answer q es. split; [|split; vm_compute; reflexivity].
  apply (session_invariant es). vm_compute. reflexivity.
Defined.

(** X5.  Handling events only ever appends: the history after is the history
    before with messages added at its end, at most two for each remote call
    made meanwhile; the calls and the started reads are appended to as
    well; and only a submit adds a remote call. *)
Theorem history_is_append_only (es : list Session.Event) (w w1 : Chat.World) :
  Session.handle_all es w = (Normal tt, w1) ->
  exists more newcalls newreads,
    Chat.conversation (Chat.ui w1) = Chat.conversation (Chat.ui w) ++ more
    /\ Chat.calls w1 = Chat.calls w ++ newcalls
    /\ Chat.reads w1 = Chat.reads w ++ newreads
    /\ length more <= 2 * length newcalls
    /\ ((forall e, In e es -> forall q, e <> Session.Submit q) -> newcalls = []).
Proof.
  revert w. induction es as [|e es IH]; intros w H.
  - injection H as <-. exists [], [], []. rewrite !app_nil_r. repeat split; auto.
  - cbn [Session.handle_all] in H. unfold bind in H.
    destruct (Session.handle e w) as [[[]|m|] w'] eqn:He; try discriminate.
    destruct (handle_extends e w w' He) as (m1 & c1 & r1 & Hm1 & Hc1 & Hr1 & Hl1 & Hs1).
    destruct (IH w' H) as (m2 & c2 & r2 & Hm2 & Hc2 & Hr2 & Hl2 & Hs2).
    exists (m1 ++ m2), (c1 ++ c2), (r1 ++ r2).
    rewrite Hm2, Hc2, Hr2, Hm1, Hc1, Hr1, <- !app_assoc.
    repeat (split; [reflexivity|]). split.
    + rewrite !length_app. lia.
    + intros Hno. rewrite Hs1, Hs2; [reflexivity | |].
      * intros e' Hin. apply Hno. right. exact Hin.
      * intros q. apply Hno. left. reflexivity.
Qed.

Lemma history_is_append_only_witness :
  let answer := {| role := "assistant"; content := [TextContent "Bonjour"] |} in
  let q := fun _ : string =>
             Resolved {| Chat.data := Chat.DataMessage answer; Chat.errors := None |} in
  let es := [Session.InputChange "Show me Paris"; Session.Submit q] in
  exists more newcalls newreads,
    Chat.conversation (Chat.ui (snd (Session.handle_all es (Chat.start Chat.initial))))
    = [] ++ more
    /\ Chat.calls (snd (Session.handle_all es (Chat.start Chat.initial))) = [] ++ newcalls
    /\ Chat.reads (snd (Session.handle_all es (Chat.start Chat.initial))) = [] ++ newreads
    /\ length more <= 2 * length newcalls.
Proof.
  intros answer q es.
  assert (Hrun : Session.handle_all es (Chat.start Chat.initial)
                 = (Normal tt, snd (Session.handle_all es (Chat.start Chat.initial))))
    by (vm_compute; reflexivity).
  destruct (history_is_append_only es (Chat.start Chat.initial)
              (snd (Session.handle_all es (Chat.start Chat.initial))) Hrun)
    as (more & newcalls & newreads & H1 & H2 & H3 & H4 & _).
  exists more, newcalls, newreads. repeat split; assumption.
Defined.

(** X6.  [handleSubmit] never throws.  It ends as a no-op; or after exactly
    one remote call, with the pending input cleared and the loading flag
    off, where either the history has gained the user message and the answer
    and the error is what it was, or the history is what it was; or it stops
    on a value outside the declared types. *)
Theorem submit_catches_every_error
    (queries_chat : string -> Settled Chat.Reply) (w : Chat.World) :
  (forall e, fst (Chat.handleSubmit queries_chat w) <> Throw e)
  /\ ((Chat.submits (Chat.ui w) = false
       /\ Chat.handleSubmit queries_chat w = (Normal tt, w))
      \/ (exists message more text,
            Chat.submits (Chat.ui w) = true
            /\ role message = "user"
            /\ Chat.handleSubmit queries_chat w
               = (Normal tt,
                  {| Chat.ui :=
                       {| Chat.conversation := Chat.conversation (Chat.ui w) ++ more;
                          Chat.inputValue := "";
                          Chat.selectedImage := None;
                          Chat.imagePreview := None;
                          Chat.error := text;
                          Chat.isLoading := false |};
                     Chat.calls :=
                       Chat.calls w
                       ++ [{| Chat.call_conversation := Chat.request (Chat.ui w) message;
                              Chat.call_state := Chat.awaiting (Chat.cleared (Chat.ui w)) |}];
                     Chat.reads := Chat.reads w |})
            /\ ((exists answer, more = [message; answer] /\ text = Chat.error (Chat.ui w))
                \/ more = []))
      \/ fst (Chat.handleSubmit queries_chat w) = Untyped).
Proof.
  pose proof (handleSubmit_ends queries_chat w) as H. split; [|exact H].
  intros e He.
  destruct H as [[_ H]|[(message & more & text & _ & _ & H & _)|H]];
    rewrite H in He; discriminate.
Qed.

(** X7.  Between events the Send button is disabled exactly when the guard
    of [handleSubmit] is closed: with the button disabled a submit changes
    nothing and calls nothing, and with the button enabled a submit calls
    the remote query exactly once. *)
Theorem send_button_matches_guard
    (queries_chat : string -> Settled Chat.Reply) (w : Chat.World) :
  Session.Invariant w ->
  Session.sendDisabled (Chat.ui w) = negb (Chat.submits (Chat.ui w))
  /\ (Session.sendDisabled (Chat.ui w) = true ->
      Chat.handleSubmit queries_chat w = (Normal tt, w))
  /\ (Session.sendDisabled (Chat.ui w) = false ->
      exists message,
        Chat.createUserMessage w
        = (Normal message,
           {| Chat.ui := Chat.cleared (Chat.ui w);
              Chat.calls := Chat.calls w; Chat.reads := Chat.reads w |})
        /\ Chat.calls (snd (Chat.handleSubmit queries_chat w))
           = Chat.calls w
             ++ [{| Chat.call_conversation := Chat.request (Chat.ui w) message;
                    Chat.call_state := Chat.awaiting (Chat.cleared (Chat.ui w)) |}]).
Proof.
  intros [Hidle Hfile _ _ _ _].
  assert (Heq : Session.sendDisabled (Chat.ui w) = negb (Chat.submits (Chat.ui w))).
  { unfold Session.sendDisabled, Chat.submits. rewrite Hidle, negb_orb. reflexivity. }
  split; [exact Heq|]. rewrite Heq. split.
  - intros H. apply handleSubmit_guarded. apply negb_true_iff. exact H.
  - intros H. apply negb_false_iff in H.
    destruct (createUserMessage_returns w) as [message Hmsg].
    { intros f Hf. apply (Hfile f Hf). }
    exists message. split; [exact Hmsg|].
    rewrite (handleSubmit_submits queries_chat w _ message H Hmsg).
    rewrite fetchChatResponse_calls. reflexivity.
Qed.

Lemma send_button_matches_guard_witness :
  let typed := snd (Chat.handleInputChange "Show me Paris" (Chat.start Chat.initial)) in
  Session.sendDisabled Chat.initial = true
  /\ Chat.handleSubmit (fun _ => Rejected "Network error") (Chat.start Chat.initial)
     = (Normal tt, Chat.start Chat.initial)
  /\ Session.sendDisabled (Chat.ui typed) = false
  /\ length (Chat.calls (snd (Chat.handleSubmit (fun _ => Rejected "Network error") typed))) = 1.
Proof.
  intros typed.
  destruct (send_button_matches_guard (fun _ => Rejected "Network error")
              (Chat.start Chat.initial) Invariant_initial) as (_ & Hoff & _).
  destruct (send_button_matches_guard (fun _ => Rejected "Network error") typed)
    as (_ & _ & Hon).
  { apply (handle_all_preserves [Session.InputChange "Show me Paris"]
             (Chat.start Chat.initial) typed Invariant_initial). reflexivity. }
  split; [reflexivity|]. split; [apply Hoff; reflexivity|]. split; [reflexivity|].
  destruct (Hon eq_refl) as (message & _ & Hcalls). rewrite Hcalls. reflexivity.
Defined.

(** X8.  [handleImageSelect] leaves the preview of the file selected before
    in place.  When a second accepted file is selected after the preview of
    a first one has arrived, a submit made before the preview of the second
    arrives sends an image with the format of the second file and the data
    of the first. *)
Theorem stale_preview_is_sent
    (queries_chat : string -> Settled Chat.Reply) (first second : Chat.File)
    (preview : string) :
  Session.accepted first ->
  Session.accepted second ->
  JS.truthy preview = true ->
  exists subtype,
    Chat.type second = String.append "image/" subtype
    /\ Chat.calls
         (snd (Session.handle_all
                 [Session.ImageSelect (Some first);
                  Session.ReaderOnload preview;
                  Session.ImageSelect (Some second);
                  Session.Submit queries_chat]
                 (Chat.start Chat.initial)))
       = [{| Chat.call_conversation :=
               Chat.request Chat.initial
                 {| role := "user";
                    content := [ImageContent subtype (BytesString preview)] |};
             Chat.call_state := Chat.awaiting Chat.initial |}].
Proof.
  intros [Ha1 Hs1] [Ha2 Hs2] Ht.
  apply N.ltb_ge in Hs1, Hs2.
  destruct (accepted_format second Ha2) as (subtype & Htype & Hformat & _).
  exists subtype. split; [exact Htype|].
  cbn [Session.handle_all Session.handle]. unfold bind at 1 2 3 4.
  unfold Chat.handleImageSelect at 1. rewrite Ha1, Hs1. cbn [negb].
  unfold Chat.start, Chat.initial, Chat.setSelectedImage, Chat.readAsDataURL, Chat.setError,
    Chat.reader_onload, Chat.setImagePreview, Chat.update, modify, bind, ret.
  cbn [Chat.ui Chat.calls Chat.reads Chat.conversation Chat.inputValue Chat.selectedImage
       Chat.imagePreview Chat.error Chat.isLoading].
  unfold Chat.handleImageSelect. rewrite Ha2, Hs2. cbn [negb].
  unfold Chat.setSelectedImage, Chat.readAsDataURL, Chat.setError, Chat.update, modify, bind.
  cbn [Chat.ui Chat.calls Chat.reads Chat.conversation Chat.inputValue Chat.selectedImage
       Chat.imagePreview Chat.error Chat.isLoading].
  match goal with
  | |- Chat.calls (snd (let (c, s') := Chat.handleSubmit _ ?w in _)) = _ =>
      assert (Hmsg : Chat.createUserMessage w
                     = (Normal {| role := "user";
                                  content := [ImageContent subtype (BytesString preview)] |},
                        {| Chat.ui := Chat.cleared (Chat.ui w);
                           Chat.calls := Chat.calls w; Chat.reads := Chat.reads w |}));
      [|assert (Hcalls := fetchChatResponse_calls queries_chat
                            {| role := "user";
                               content := [ImageContent subtype (BytesString preview)] |}
                            {| Chat.ui := Chat.cleared (Chat.ui w);
                               Chat.calls := Chat.calls w; Chat.reads := Chat.reads w |});
        rewrite <- (handleSubmit_submits queries_chat w _ _ eq_refl Hmsg) in Hcalls;
        destruct (Chat.handleSubmit queries_chat w) as [[[]|e|] w'];
        cbn [snd] in *; exact Hcalls]
  end.
  unfold Chat.createUserMessage, Chat.removeImage, Chat.setInputValue, Chat.setSelectedImage,
    Chat.setImagePreview, Chat.update, Chat.state, modify, bind, ret.
  cbn [Chat.ui Chat.calls Chat.reads Chat.conversation Chat.inputValue Chat.selectedImage
       Chat.imagePreview Chat.error Chat.isLoading].
  rewrite Ht, Hformat. reflexivity.
Qed.

Lemma stale_preview_is_sent_witness :
  let png := {| Chat.type := "image/png"; Chat.size := 1024 |} in
  let jpeg := {| Chat.type := "image/jpeg"; Chat.size := 2048 |} in
  map Chat.call_conversation
    (Chat.calls
       (snd (Session.handle_all
               [Session.ImageSelect (Some png);
                Session.ReaderOnload "data:image/png;base64,QUJD";
                Session.ImageSelect (Some jpeg);
                Session.Submit (fun _ => Rejected "Network error")]
               (Chat.start Chat.initial))))
  = [JS.dq "[{'role':'user','content':[{'image':{'format':'jpeg','source':{'bytes':'data:image/png;base64,QUJD'}}}]}]"].
Proof.
  intros png jpeg.
  destruct (stale_preview_is_sent (fun _ => Rejected "Network error") png jpeg
              "data:image/png;base64,QUJD") as (subtype & Htype & Hcalls).
  - split; [reflexivity | vm_compute; discriminate].
  - split; [reflexivity | vm_compute; discriminate].
  - reflexivity.
  - rewrite Hcalls. injection Htype as <-. reflexivity.
Defined.

Section ImageToApi.

Lemma map_processContent_text_part (st : Chat.State) :
  map Handler.processContent (Session.text_part st) = Session.text_part st.
Proof. unfold Session.text_part. destruct (JS.truthy _); reflexivity. Qed.

End ImageToApi.

(** X9.  An accepted file goes from the file input to the inference API as
    its bytes.  With the preview that a [FileReader] writes for it ([data:],
    the type of the file, [;base64,] and a non-empty base64 text), the user
    message holds the pending text as typed, then the image with the
    subtype of the file as format and the preview as bytes; and the
    normalizer turns that image into the decoded bytes: the header of every
    allowed type is one that its pattern removes. *)
Theorem accepted_image_reaches_the_api_as_bytes
    (st : Chat.State) (file : Chat.File) (payload : string) :
  Chat.selectedImage st = Some file ->
  Session.accepted file ->
  Chat.imagePreview st
  = Some (String.append "data:"
            (String.append (Chat.type file) (String.append ";base64," payload))) ->
  payload <> "" ->
  Handler.is_base64_text payload = true ->
  exists subtype message,
    In subtype ["jpeg"; "jpg"; "png"; "gif"; "webp"]
    /\ Chat.type file = String.append "image/" subtype
    /\ Chat.run Chat.createUserMessage st = (Normal message, Chat.start (Chat.cleared st))
    /\ message
       = {| role := "user";
            content := Session.text_part st
                       ++ [ImageContent subtype
                             (BytesString (Handler.data_uri subtype payload))] |}
    /\ Handler.processMessages (inr (Chat.conversation st ++ [message]))
       = Normal (map Handler.processMessage (Chat.conversation st)
                 ++ [{| role := "user";
                        content := Session.text_part st
                                   ++ [ImageContent subtype
                                         (BytesBuffer (JS.Buffer_from_base64 payload))] |}]).
Proof.
  intros Hfile [Ha _] Hpreview Hne Hb64.
  destruct (createUserMessage_with_image (Chat.start st) file _ Hfile Ha Hpreview eq_refl)
    as (subtype & Htype & Hin & Hlow & Hsub & Hmsg).
  rewrite Htype in Hmsg.
  change (String.append "data:" (String.append (String.append "image/" subtype)
                                   (String.append ";base64," payload)))
    with (Handler.data_uri subtype payload) in Hmsg.
  eexists subtype, _. split; [exact Hin|]. split; [exact Htype|].
  split; [exact Hmsg|]. split; [reflexivity|].
  unfold Handler.processMessages. cbn [Handler.parseConversation].
  rewrite map_app. cbn [map]. unfold Handler.processMessage at 2. cbn [role content].
  rewrite map_app, map_processContent_text_part. cbn [map Handler.processContent].
  rewrite truthy_data_uri, replace_data_uri by assumption. reflexivity.
Qed.

Lemma accepted_image_reaches_the_api_as_bytes_witness :
  let png := {| Chat.type := "image/png"; Chat.size := 3 |} in
  let st :=
    {| Chat.conversation := []; Chat.inputValue := " What is this? ";
       Chat.selectedImage := Some png;
       Chat.imagePreview := Some "data:image/png;base64,QUJD";
       Chat.error := ""; Chat.isLoading := false |} in
  exists message,
    fst (Chat.run Chat.createUserMessage st) = Normal message
    /\ Handler.processMessages (inr [message])
       = Normal [ {| role := "user";
                     content := [TextContent " What is this? ";
                                 ImageContent "png" (BytesBuffer [x41; x42; x43])] |} ].
Proof.
  intros png st.
  destruct (accepted_image_reaches_the_api_as_bytes st png "QUJD")
    as (subtype & message & _ & Htype & Hmsg & Hcontent & Hnorm).
  - reflexivity.
  - split; [reflexivity | vm_compute; discriminate].
  - reflexivity.
  - discriminate.
  - reflexivity.
  - exists message. rewrite Hmsg. split; [reflexivity|].
    injection Htype as <-. cbn [Chat.conversation st app map] in Hnorm. exact Hnorm.
Defined.

(** X10.  One exchange through both functions.  When the reply that the
    component receives is what [handler] returns for the request, and the
    inference API answers the normalized history with a message, the
    handler is called with the history and the new user message, sends them
    normalized in one command, and the component appends the user message
    and that answer to its history. *)
Theorem exchange_through_the_handler
    (MODEL_ID : option string)
    (client_send : Handler.ConverseCommandInput -> Settled Handler.ConverseResponse)
    (queries_chat : string -> Settled Chat.Reply)
    (st : Chat.State) (message answer : Message) (w1 : Chat.World) :
  Chat.submits st = true ->
  Chat.run Chat.createUserMessage st = (Normal message, w1) ->
  OnWire.conversation (Chat.conversation st) = true ->
  OnWire.message message = true ->
  OnWire.message answer = true ->
  client_send (converse_command MODEL_ID
                 (map Handler.processMessage (Chat.conversation st ++ [message])))
  = Resolved {| Handler.output_message := Some answer |} ->
  (forall text,
      fst (Handler.handler MODEL_ID client_send (inl (Chat.request st message)) [])
      = Normal text ->
      queries_chat (Chat.request st message)
      = Resolved {| Chat.data := Chat.DataString text; Chat.errors := None |}) ->
  Handler.handler MODEL_ID client_send (inl (Chat.request st message)) []
  = (Normal (JS.JSON.stringify (Message_to_json answer)),
     [converse_command MODEL_ID
        (map Handler.processMessage (Chat.conversation st ++ [message]))])
  /\ Chat.run (Chat.handleSubmit queries_chat) st
     = (Normal tt,
        {| Chat.ui :=
             {| Chat.conversation := Chat.conversation st ++ [message; answer];
                Chat.inputValue := "";
                Chat.selectedImage := None;
                Chat.imagePreview := None;
                Chat.error := Chat.error st;
                Chat.isLoading := false |};
           Chat.calls :=
             [{| Chat.call_conversation := Chat.request st message;
                 Chat.call_state := Chat.awaiting (Chat.cleared st) |}];
           Chat.reads := [] |}).
Proof.
  intros Hguard Hmsg Hhistory Hmessage Hanswer Hsend Htransport.
  assert (Hwire : OnWire.conversation (Chat.conversation st ++ [message]) = true).
  { rewrite onwire_app, Hhistory. cbn. rewrite Hmessage. reflexivity. }
  assert (Hnorm : Handler.processMessages (inl (Chat.request st message))
                  = Normal (map Handler.processMessage (Chat.conversation st ++ [message]))).
  { unfold Chat.request, Handler.processMessages.
    rewrite parseConversation_stringify by exact Hwire. reflexivity. }
  assert (Hhandler : Handler.handler MODEL_ID client_send (inl (Chat.request st message)) []
                     = (Normal (JS.JSON.stringify (Message_to_json answer)),
                        [converse_command MODEL_ID
                           (map Handler.processMessage (Chat.conversation st ++ [message]))])).
  { rewrite handler_unfold, Hnorm, Hsend. reflexivity. }
  split; [exact Hhandler|].
  specialize (Htransport _ (f_equal fst Hhandler)).
  unfold Chat.run in *.
  rewrite (handleSubmit_submits queries_chat (Chat.start st) w1 message Hguard Hmsg).
  apply createUserMessage_normal in Hmsg as [-> _].
  apply (fetchChatResponse_success queries_chat) with (reply :=
    {| Chat.data := Chat.DataString (JS.JSON.stringify (Message_to_json answer));
       Chat.errors := None |}).
  - exact Htransport.
  - apply (Chat.succeeds_string _ (Message_to_json answer)).
    + reflexivity.
    + apply parse_stringify, plain_message, Hanswer.
    + apply message_of_to_json, Hanswer.
Qed.

Lemma exchange_through_the_handler_witness :
  let st :=
    {| Chat.conversation := []; Chat.inputValue := "Show me Paris";
       Chat.selectedImage := None; Chat.imagePreview := None;
       Chat.error := ""; Chat.isLoading := false |} in
  let message := {| role := "user"; content := [TextContent "Show me Paris"] |} in
  let answer := {| role := "assistant"; content := [TextContent "Bonjour"] |} in
  let client_send := fun _ : Handler.ConverseCommandInput =>
                       Resolved {| Handler.output_message := Some answer |} in
  let queries_chat := fun conversation : string =>
    match fst (Handler.handler (Some "model") client_send (inl conversation) []) with
    | Normal text => Resolved {| Chat.data := Chat.DataString text; Chat.errors := None |}
    | Throw e => Rejected e
    | Untyped => Rejected ""
    end in
  Chat.conversation (Chat.ui (snd (Chat.run (Chat.handleSubmit queries_chat) st)))
  = [message; answer].
Proof.
  intros st message answer client_send queries_chat.
  destruct (exchange_through_the_handler (Some "model") client_send queries_chat
              st message answer (Chat.start (Chat.cleared st))) as [_ H].
  - reflexivity.
  - reflexivity.
  - reflexivity.
  - reflexivity.
  - reflexivity.
  - reflexivity.
  - intros text Htext. unfold queries_chat. rewrite Htext. reflexivity.
  - rewrite H. reflexivity.
Defined.

Section CallsAndErrors.

Import Chat.

Lemma carried_later (now more : Conversation) (call : ChatCall) :
  Session.carried now call -> Session.carried (now ++ more) call.
Proof.
  intros (message & more0 & Hrole & Hcall & ->).
  exists message, (more0 ++ more). rewrite app_assoc. auto.
Qed.

Lemma handle_carried (e : Session.Event) (w w1 : World) :
  Forall (Session.carried (conversation (ui w))) (calls w) ->
  Session.handle e w = (Normal tt, w1) ->
  Forall (Session.carried (conversation (ui w1))) (calls w1).
Proof.
  intros Hc H.
  assert (Hold : forall more, Forall (Session.carried (conversation (ui w) ++ more)) (calls w)).
  { intros more. eapply Forall_impl; [|exact Hc]. intros call. apply carried_later. }
  destruct e as [value|file| |result|q];
    try (destruct (handle_extends _ w w1 H) as (more & newcalls & _ & -> & -> & _ & _ & Hno);
         rewrite Hno by discriminate; rewrite app_nil_r; apply Hold).
  cbn [Session.handle] in H.
  destruct (handleSubmit_ends q w)
    as [[_ H0]|[(message & more & text & _ & Hrole & H0 & _)|H0]].
  - rewrite H0 in H. injection H as <-. exact Hc.
  - rewrite H0 in H. injection H as <-. cbn [ui calls conversation].
    apply Forall_app. split; [apply Hold|]. constructor; [|constructor].
    exists message, more. cbn [call_conversation call_state awaiting cleared conversation].
    repeat split; assumption || reflexivity.
  - rewrite H in H0. discriminate.
Qed.

End CallsAndErrors.

(** X11.  Every remote call of a session carried the whole history of its
    moment followed by one new message of role [user], and that history is
    still the beginning of the current one: an exchange never rewrites or
    drops what earlier exchanges recorded. *)
Theorem calls_carry_the_history (es : list Session.Event) (w : Chat.World) :
  Session.handle_all es (Chat.start Chat.initial) = (Normal tt, w) ->
  Forall (Session.carried (Chat.conversation (Chat.ui w))) (Chat.calls w).
Proof.
  assert (H : forall w0,
             Forall (Session.carried (Chat.conversation (Chat.ui w0))) (Chat.calls w0) ->
             Session.handle_all es w0 = (Normal tt, w) ->
             Forall (Session.carried (Chat.conversation (Chat.ui w))) (Chat.calls w)).
  { induction es as [|e es IH]; intros w0 Hc H.
    - injection H as <-. exact Hc.
    - cbn [Session.handle_all] in H. unfold bind in H.
      destruct (Session.handle e w0) as [[[]|m|] w'] eqn:He; try discriminate.
      apply (IH w'); [|exact H]. apply (handle_carried e w0 w' Hc He). }
  apply H. constructor.
Qed.

Lemma calls_carry_the_history_witness :
  let answer := {| role := "assistant"; content := [TextContent "Bonjour"] |} in
  let q := fun _ : string =>
             Resolved {| Chat.data := Chat.DataMessage answer; Chat.errors := None |} in
  let es := [Session.InputChange "Show me Paris"; Session.Submit q;
             Session.InputChange "And Rome"; Session.Submit q] in
  map Chat.call_conversation (Chat.calls (snd (Session.handle_all es (Chat.start Chat.initial))))
  = [JS.dq "[{'role':'user','content':[{'text':'Show me Paris'}]}]";
     JS.dq "[{'role':'user','content':[{'text':'Show me Paris'}]},{'role':'assistant','content':[{'text':'Bonjour'}]},{'role':'user','content':[{'text':'And Rome'}]}]"]
  /\ Forall (Session.carried
               (Chat.conversation
                  (Chat.ui (snd (Session.handle_all es (Chat.start Chat.initial))))))
       (Chat.calls (snd (Session.handle_all es (Chat.start Chat.initial)))).
Proof.
  intros answer q es. split; [vm_compute; reflexivity|].
  apply (calls_carry_the_history es). vm_compute. reflexivity.
Defined.

(** X12.  The error state changes only in four ways: typing clears it, an
    accepted file clears it, a refused file sets one of the two messages of
    [handleImageSelect], and a submit that left the history as it was sets
    the text of its failure.  Removing the image, the arrival of a preview
    and a successful submit leave it alone. *)
Theorem error_changes_only_by (e : Session.Event) (w w1 : Chat.World) :
  Session.handle e w = (Normal tt, w1) ->
  Chat.error (Chat.ui w1) <> Chat.error (Chat.ui w) ->
  (Chat.error (Chat.ui w1) = ""
   /\ ((exists value, e = Session.InputChange value)
       \/ (exists file, e = Session.ImageSelect (Some file) /\ Session.accepted file)))
  \/ (exists file,
        e = Session.ImageSelect (Some file)
        /\ ~ Session.accepted file
        /\ (Chat.error (Chat.ui w1)
            = "Please select a valid image file (JPEG, PNG, GIF, or WebP)"
            \/ Chat.error (Chat.ui w1) = "Image size must be less than 5MB")
        /\ Chat.selectedImage (Chat.ui w1) = Chat.selectedImage (Chat.ui w))
  \/ (exists queries_chat,
        e = Session.Submit queries_chat
        /\ Chat.conversation (Chat.ui w1) = Chat.conversation (Chat.ui w)
        /\ length (Chat.calls w1) = S (length (Chat.calls w))).
Proof.
  intros H Hne.
  destruct e as [value|[file|]| |result|q]; cbn [Session.handle] in H.
  - left. destruct w as [st cs rs].
    unfold Chat.handleInputChange, Chat.setError, Chat.setInputValue, Chat.update, modify, bind in H.
    injection H as <-. split; [reflexivity | left; eexists; reflexivity].
  - destruct w as [st cs rs]. unfold Chat.handleImageSelect in H.
    destruct (Chat.includes Chat.allowedTypes (Chat.type file)) eqn:Ha; cbn [negb] in H.
    + destruct (5 * 1024 * 1024 <? Chat.size file)%N eqn:Hs;
        unfold Chat.setError, Chat.setSelectedImage, Chat.readAsDataURL, Chat.update, modify, bind in H;
        injection H as <-.
      * right. left. exists file. split; [reflexivity|]. split; [|split; [right|]; reflexivity].
        intros [_ Hle]. apply N.ltb_lt in Hs. apply N.lt_nge in Hs. exact (Hs Hle).
      * left. split; [reflexivity|]. right. exists file. split; [reflexivity|].
        apply N.ltb_ge in Hs. split; assumption.
    + unfold Chat.setError, Chat.update, modify in H. injection H as <-.
      right. left. exists file. split; [reflexivity|]. split; [|split; [left|]; reflexivity].
      intros [Hin _]. congruence.
  - injection H as <-. exfalso. apply Hne. reflexivity.
  - destruct w as [st cs rs].
    unfold Chat.removeImage, Chat.setSelectedImage, Chat.setImagePreview, Chat.update, modify, bind in H.
    injection H as <-. exfalso. apply Hne. reflexivity.
  - destruct w as [st cs rs].
    unfold Chat.reader_onload, Chat.setImagePreview, Chat.update, modify in H.
    injection H as <-. exfalso. apply Hne. reflexivity.
  - destruct (handleSubmit_ends q w)
      as [[_ H0]|[(message & more & text & _ & _ & H0 & Hmore)|H0]].
    + rewrite H0 in H. injection H as <-. exfalso. apply Hne. reflexivity.
    + rewrite H0 in H. injection H as <-. cbn [Chat.ui Chat.error Chat.conversation Chat.calls] in *.
      destruct Hmore as [(answer & -> & ->)| ->]; [exfalso; apply Hne; reflexivity|].
      right. right. exists q. split; [reflexivity|]. split; [apply app_nil_r|].
      rewrite length_app. cbn. lia.
    + rewrite H in H0. discriminate.
Qed.

Lemma error_changes_only_by_witness :
  let bmp := {| Chat.type := "image/bmp"; Chat.size := 1024 |} in
  let w1 := snd (Session.handle (Session.ImageSelect (Some bmp)) (Chat.start Chat.initial)) in
  Chat.error (Chat.ui w1) = "Please select a valid image file (JPEG, PNG, GIF, or WebP)"
  /\ ~ Session.accepted bmp.
Proof.
  intros bmp w1.
  destruct (error_changes_only_by (Session.ImageSelect (Some bmp))
              (Chat.start Chat.initial) w1) as [[H _]|[(file & He & Hna & _)|(q & He & _)]].
  - reflexivity.
  - discriminate.
  - discriminate.
  - injection He as <-. split; [reflexivity | exact Hna].
  - discriminate.
Defined.
